(** * ReDD Block helper daemon: hosts rule editor, state store, commands

    A shallow embedding of [helper/redd-block-helper.js].

    - [JS]      : the JavaScript string primitives the daemon uses
                  ([includes], [indexOf], [substring], [trimStart],
                  [trimEnd], [toLowerCase], [join], the two regular
                  expressions of the domain clean-up).
    - [Hosts]   : [containsBlock], [removeBlockFromHosts], [addBlockToHosts].
    - [Daemon]  : the process state (the three module-level variables, the
                  hosts file, the state file), a state-and-exception monad
                  for the effectful functions, and [loadState], [saveState],
                  [startBlock], [clearBlock], [getStatus], the timer
                  callback and [checkBlockIntegrity].
    - [Server]  : the listener of the [data] event of one connection.
    - [Client]  : one call of [send] of [helper/ipc-client.js], as the
                  handlers of its socket and timer events.
    - [BlockWebsites] : the hosts text the [block-websites] handler of the
                  main process builds.

    A JavaScript string is a sequence of UTF-16 code units.  The model keeps
    the code units below 256 (one [ascii] each, read as Latin-1); this set
    is closed under every string operation of the daemon. *)

From Stdlib Require Import List Ascii String ZArith Lia Bool.
Import ListNotations.

(* ================================================================== *)
(** ** JavaScript strings *)
(* ================================================================== *)

Module JS.

Definition str : Type := list ascii.

(** A string literal of the source. *)
Definition lit (s : string) : str := list_ascii_of_string s.

Definition code (c : ascii) : N := N_of_ascii c.

(** [LineTerminator] of ECMAScript, restricted to code units < 256:
    LF and CR.  The regular-expression atom [.] matches everything else. *)
Definition isLineTerminator (c : ascii) : bool :=
  ((code c =? 10) || (code c =? 13))%N.

(** What [trim*] strips: [WhiteSpace] and [LineTerminator], restricted to
    code units < 256: TAB, LF, VT, FF, CR, SP, NBSP. *)
Definition isWhiteSpace (c : ascii) : bool :=
  ((code c =? 9) || (code c =? 10) || (code c =? 11) || (code c =? 12)
   || (code c =? 13) || (code c =? 32) || (code c =? 160))%N.

(** [s.length] *)
Definition length (s : str) : Z := Z.of_nat (List.length s).

(** [s.trimStart()] *)
Fixpoint trimStart (s : str) : str :=
  match s with
  | [] => []
  | c :: r => if isWhiteSpace c then trimStart r else s
  end.

(** [s.trimEnd()] *)
Definition trimEnd (s : str) : str := rev (trimStart (rev s)).

(** [s.startsWith(p)] *)
Fixpoint startsWith (s p : str) {struct p} : bool :=
  match p with
  | [] => true
  | a :: p' =>
      match s with
      | [] => false
      | b :: s' => Ascii.eqb a b && startsWith s' p'
      end
  end.

(** Position of the first occurrence of [p] in [s], scanning from the left. *)
Fixpoint find (s p : str) {struct s} : option nat :=
  if startsWith s p then Some 0%nat
  else match s with
       | [] => None
       | _ :: r => option_map S (find r p)
       end.

(** [s.indexOf(p)]: the first position, or -1. *)
Definition indexOf (s p : str) : Z :=
  match find s p with
  | Some i => Z.of_nat i
  | None => (-1)%Z
  end.

(** [s.includes(p)] *)
Fixpoint includes (s p : str) {struct s} : bool :=
  startsWith s p ||
  match s with
  | [] => false
  | _ :: r => includes r p
  end.

(** Arguments of [substring] are clamped to [0 .. s.length]. *)
Definition clamp (s : str) (i : Z) : nat :=
  Nat.min (Z.to_nat i) (List.length s).

(** [s.substring(a, b)]: clamps, and swaps the bounds when [a > b]. *)
Definition substring (s : str) (a b : Z) : str :=
  let lo := Nat.min (clamp s a) (clamp s b) in
  let hi := Nat.max (clamp s a) (clamp s b) in
  firstn (hi - lo) (skipn lo s).

(** [s.substring(a)] *)
Definition substringFrom (s : str) (a : Z) : str := skipn (clamp s a) s.

(** [c.toLowerCase()] on one code unit < 256: A-Z, and the Latin-1
    capitals U+00C0..U+00DE except the multiplication sign U+00D7. *)
Definition lowerChar (c : ascii) : ascii :=
  let n := code c in
  if (((65 <=? n) && (n <=? 90))
      || ((192 <=? n) && (n <=? 222) && negb (n =? 215)))%N
  then ascii_of_N (n + 32) else c.

(** [s.toLowerCase()] *)
Definition toLowerCase (s : str) : str := map lowerChar s.

(** [xs.join(sep)] *)
Fixpoint join (sep : str) (xs : list str) : str :=
  match xs with
  | [] => []
  | [x] => x
  | x :: rest => x ++ sep ++ join sep rest
  end.

(** [xs.push(x)] *)
Definition push (xs : list str) (x : str) : list str := xs ++ [x].

(** Truthiness of a string: non-empty. *)
Definition truthy (s : str) : bool :=
  match s with [] => false | _ => true end.

(** [s.replace(/^https?:\/\//, '')]: no [i] flag, so only the lower-case
    schemes match; [s?] is greedy but at most one of the two alternatives
    can match. *)
Definition replaceScheme (s : str) : str :=
  if startsWith s (lit "https://") then skipn 8 s
  else if startsWith s (lit "http://") then skipn 7 s
  else s.

(** [s.replace(/\/.*$/, '')]: no [m] flag, so [$] is the end of the input
    and [.] does not cross a line terminator.  The match starts at the
    leftmost slash that has no line terminator after it, and runs to the
    end of the string. *)
Fixpoint replacePath (s : str) : str :=
  match s with
  | [] => []
  | c :: r =>
      if Ascii.eqb c "/"%char && forallb (fun x => negb (isLineTerminator x)) r
      then []
      else c :: replacePath r
  end.

End JS.

(* ================================================================== *)
(** ** Hosts rule editor *)
(* ================================================================== *)

Module Hosts.

Definition BLOCK_MARKER_START : JS.str := JS.lit "# BEGIN REDD BLOCK".
Definition BLOCK_MARKER_END : JS.str := JS.lit "# END REDD BLOCK".

(** The string ['\n']. *)
Definition LF : JS.str := JS.lit (String (ascii_of_nat 10) EmptyString).

Definition containsBlock (content : JS.str) : bool :=
  JS.includes content BLOCK_MARKER_START.

Definition removeBlockFromHosts (content : JS.str) : JS.str :=
  let startIndex := JS.indexOf content BLOCK_MARKER_START in
  let endIndex := JS.indexOf content BLOCK_MARKER_END in
  if (startIndex =? -1)%Z then content
  else
    let before := JS.trimEnd (JS.substring content 0 startIndex) in
    let after :=
      if negb (endIndex =? -1)%Z
      then JS.trimStart
             (JS.substringFrom content (endIndex + JS.length BLOCK_MARKER_END))
      else [] in
    before ++ (if JS.truthy after then LF ++ after else []).

(** The [cleanDomain] constant of the [forEach] callback. *)
Definition cleanDomain (domain : JS.str) : JS.str :=
  JS.toLowerCase (JS.replacePath (JS.replaceScheme domain)).

(** One run of the [forEach] callback: four [push] calls. *)
Definition pushDomain (blockLines : list JS.str) (domain : JS.str)
  : list JS.str :=
  let cleanDomain := cleanDomain domain in
  let blockLines := JS.push blockLines (JS.lit "0.0.0.0 " ++ cleanDomain) in
  let blockLines := JS.push blockLines (JS.lit "0.0.0.0 www." ++ cleanDomain) in
  let blockLines := JS.push blockLines (JS.lit ":: " ++ cleanDomain) in
  JS.push blockLines (JS.lit ":: www." ++ cleanDomain).

(** The array [blockLines] when [addBlockToHosts] joins it. *)
Definition blockLines (domains : list JS.str) : list JS.str :=
  let blockLines :=
    [ JS.lit "";
      BLOCK_MARKER_START;
      JS.lit "# Managed by ReDD Block - DO NOT EDIT" ] in
  let blockLines := fold_left pushDomain domains blockLines in
  let blockLines := JS.push blockLines BLOCK_MARKER_END in
  JS.push blockLines (JS.lit "").

Definition addBlockToHosts (content : JS.str) (domains : list JS.str)
  : JS.str :=
  let content := removeBlockFromHosts content in
  JS.trimEnd content ++ LF ++ JS.join LF (blockLines domains).

End Hosts.

(* ================================================================== *)
(** ** The daemon: state, effects, commands *)
(* ================================================================== *)

Module Daemon.

(** [{ domains: [], endTime: number, blocklistId: string }];
    [endTime] in milliseconds since the epoch. *)
Record BlockState : Type := mkBlock {
  domains : list JS.str;
  endTime : Z;
  blocklistId : JS.str
}.

(** What is at [DATA_PATH]: nothing, a text [JSON.parse] rejects, or the
    document [{ currentBlock }]. *)
Inductive StateFile : Type :=
| NoFile
| Unparsable
| Document (data_currentBlock : option BlockState).

Inductive Platform : Type := Darwin | Win32 | OtherPlatform.

(** What the daemon does to the outside world, most recent first. *)
Inductive Event : Type :=
| HostsRead
| HostsWrite (content : JS.str) (ok : bool)
| StateWrite (ok : bool)
| FirewallApply (ok : bool)
| FirewallClear (ok : bool)
| DnsFlush (ok : bool).

(** The three module-level variables, the two files, and the trace. *)
Record World : Type := mkWorld {
  currentBlock : option BlockState;
  checkupInterval : bool;           (* a timer handle is set *)
  hostsBackup : option JS.str;
  hostsFile : option JS.str;        (* [None]: cannot be read *)
  stateFile : StateFile;
  trace : list Event
}.

(** What the daemon cannot control during one call. *)
Record Env : Type := mkEnv {
  now : Z;                          (* [Date.now()] *)
  platform : Platform;              (* [process.platform] *)
  dataDirOk : bool;                 (* [ensureDataDir] does not throw *)
  hostsWritable : bool;             (* [fs.writeFileSync(HOSTS_PATH, _)] *)
  stateWritable : bool;             (* [fs.writeFileSync(DATA_PATH, _)] *)
  firewallOk : bool;                (* pfctl / netsh and the anchor file *)
  dnsOk : bool                      (* the cache flush commands *)
}.

Inductive Exn : Type := TypeError | RangeError | SyntaxError | IOError.

Inductive Res (A : Type) : Type :=
| Ret (a : A)
| Throw (e : Exn).
Arguments Ret {A} a.
Arguments Throw {A} e.

(** Stateful code that may throw. *)
Definition M (A : Type) : Type := World -> Res A * World.

Definition ret {A} (a : A) : M A := fun w => (Ret a, w).

Definition throw {A} (e : Exn) : M A := fun w => (Throw e, w).

Definition bind {A B} (m : M A) (k : A -> M B) : M B :=
  fun w =>
    match m w with
    | (Ret a, w') => k a w'
    | (Throw e, w') => (Throw e, w')
    end.

(** [try { m } catch (err) { h err }] *)
Definition tryCatch {A} (m : M A) (h : Exn -> M A) : M A :=
  fun w =>
    match m w with
    | (Ret a, w') => (Ret a, w')
    | (Throw e, w') => h e w'
    end.

Definition get : M World := fun w => (Ret w, w).

Definition emit (e : Event) : M unit :=
  fun w =>
    (Ret tt, mkWorld (currentBlock w) (checkupInterval w) (hostsBackup w)
                     (hostsFile w) (stateFile w) (e :: trace w)).

Declare Scope daemon_scope.
Delimit Scope daemon_scope with daemon.
Notation "x <- m ;; k" := (bind m (fun x => k))
  (at level 61, m at next level, right associativity) : daemon_scope.
Notation "m ;; k" := (bind m (fun _ => k))
  (at level 61, right associativity) : daemon_scope.
Local Open Scope daemon_scope.

(** Assignments to the module-level variables and to the files. *)
Definition set_currentBlock (b : option BlockState) : M unit :=
  fun w =>
    (Ret tt, mkWorld b (checkupInterval w) (hostsBackup w)
                     (hostsFile w) (stateFile w) (trace w)).

Definition set_checkupInterval (t : bool) : M unit :=
  fun w =>
    (Ret tt, mkWorld (currentBlock w) t (hostsBackup w)
                     (hostsFile w) (stateFile w) (trace w)).

Definition set_hostsBackup (c : option JS.str) : M unit :=
  fun w =>
    (Ret tt, mkWorld (currentBlock w) (checkupInterval w) c
                     (hostsFile w) (stateFile w) (trace w)).

Definition set_hostsFile (c : option JS.str) : M unit :=
  fun w =>
    (Ret tt, mkWorld (currentBlock w) (checkupInterval w) (hostsBackup w)
                     c (stateFile w) (trace w)).

Definition set_stateFile (f : StateFile) : M unit :=
  fun w =>
    (Ret tt, mkWorld (currentBlock w) (checkupInterval w) (hostsBackup w)
                     (hostsFile w) f (trace w)).

(** [new Date(t).toISOString()] throws a RangeError outside the range of
    time values, 8.64e15 ms either side of the epoch.  Only whether it
    throws matters: the text goes to the log. *)
Definition validTime (t : Z) : bool :=
  ((-8640000000000000 <=? t) && (t <=? 8640000000000000))%Z.

Definition Date_toISOString (t : Z) : M unit :=
  if validTime t then ret tt else throw RangeError.

(** [console.log] / [console.error]: nothing the model observes. *)
Definition log : M unit := ret tt.
Definition logError (err : Exn) : M unit := ret tt.

(** Result objects of the commands. *)
Inductive Response : Type :=
| Success (message : option JS.str)        (* {success: true [, message]} *)
| Failure (error : JS.str)                 (* {success: false, error} *)
| Inactive                                 (* {active: false} *)
| Active (domains : list JS.str) (endTime : Z) (blocklistId : JS.str)
         (remainingMs : Z).                (* {active: true, ...} *)

(** The commands as the clients of this repository send them: [domains]
    an array of strings, [endTime] a number. *)
Inductive Command : Type :=
| StartBlockCmd (domains : list JS.str) (endTime : Z) (blocklistId : JS.str)
| ClearBlockCmd
| GetStatusCmd
| PingCmd
| OtherCmd (action : JS.str).

Section WithEnv.

Variable env : Env.

(* ---------------- State persistence ---------------- *)

Definition ensureDataDir : M unit :=
  if dataDirOk env then ret tt else throw IOError.

Definition fs_writeState (doc : StateFile) : M unit :=
  if stateWritable env
  then emit (StateWrite true) ;; set_stateFile doc
  else emit (StateWrite false) ;; throw IOError.

Definition loadState : M unit :=
  tryCatch
    (ensureDataDir ;;
     w <- get ;;
     match stateFile w with
     | NoFile => ret tt
     | Unparsable => throw SyntaxError
     | Document data_currentBlock =>
         match data_currentBlock with
         | Some b =>
             if (endTime b >? now env)%Z
             then set_currentBlock (Some b) ;;
                  Date_toISOString (endTime b) ;;
                  log
             else ret tt
         | None => ret tt
         end
     end)
    (fun err => logError err).

Definition saveState : M unit :=
  tryCatch
    (ensureDataDir ;;
     w <- get ;;
     fs_writeState (Document (currentBlock w)))
    (fun err => logError err).

(* ---------------- Hosts file management ---------------- *)

Definition fs_readHosts : M JS.str :=
  emit HostsRead ;;
  w <- get ;;
  match hostsFile w with
  | Some content => ret content
  | None => throw IOError
  end.

Definition fs_writeHosts (content : JS.str) : M unit :=
  if hostsWritable env
  then emit (HostsWrite content true) ;; set_hostsFile (Some content)
  else emit (HostsWrite content false) ;; throw IOError.

Definition readHostsFile : M JS.str :=
  tryCatch fs_readHosts (fun err => logError err ;; ret (JS.lit "")).

Definition writeHostsFile (content : JS.str) : M bool :=
  tryCatch (fs_writeHosts content ;; ret true)
           (fun err => logError err ;; ret false).

Definition backupHostsFile : M unit :=
  c <- readHostsFile ;; set_hostsBackup (Some c).

(* ---------------- Firewall management ---------------- *)

Definition pf_load : M unit :=
  emit (FirewallApply (firewallOk env)) ;;
  if firewallOk env then ret tt else throw IOError.

Definition pf_flush : M unit :=
  emit (FirewallClear (firewallOk env)) ;;
  if firewallOk env then ret tt else throw IOError.

Definition netsh_delete_rule : M unit :=
  emit (FirewallClear (firewallOk env)) ;;
  if firewallOk env then ret tt else throw IOError.

Definition applyFirewallRulesMacOS (domains : list JS.str) : M bool :=
  tryCatch (pf_load ;; ret true) (fun err => logError err ;; ret false).

Definition applyFirewallRulesWindows (domains : list JS.str) : M bool :=
  tryCatch
    (tryCatch netsh_delete_rule (fun e => ret tt) ;;
     log ;;
     ret true)
    (fun err => logError err ;; ret false).

Definition applyFirewallRules (domains : list JS.str) : M bool :=
  match platform env with
  | Darwin => applyFirewallRulesMacOS domains
  | Win32 => applyFirewallRulesWindows domains
  | OtherPlatform => ret true
  end.

Definition clearFirewallRulesMacOS : M bool :=
  tryCatch (pf_flush ;; ret true) (fun err => logError err ;; ret false).

Definition clearFirewallRulesWindows : M bool :=
  tryCatch (netsh_delete_rule ;; ret true) (fun err => ret true).

Definition clearFirewallRules : M bool :=
  match platform env with
  | Darwin => clearFirewallRulesMacOS
  | Win32 => clearFirewallRulesWindows
  | OtherPlatform => ret true
  end.

Definition exec_flush : M unit :=
  emit (DnsFlush (dnsOk env)) ;;
  if dnsOk env then ret tt else throw IOError.

Definition flushDNSCache : M unit :=
  tryCatch exec_flush (fun err => log).

(* ---------------- Block management ---------------- *)

Definition startCheckupTimer : M unit :=
  w <- get ;;
  if checkupInterval w then ret tt
  else log ;; set_checkupInterval true.

Definition stopCheckupTimer : M unit :=
  w <- get ;;
  if checkupInterval w then log ;; set_checkupInterval false
  else ret tt.

Definition startBlock (domains : list JS.str) (endTime : Z)
           (blocklistId : JS.str) : M Response :=
  Date_toISOString endTime ;; log ;;
  backupHostsFile ;;
  hostsContent <- readHostsFile ;;
  let newContent := Hosts.addBlockToHosts hostsContent domains in
  ok <- writeHostsFile newContent ;;
  if negb ok then ret (Failure (JS.lit "Failed to write hosts file"))
  else
    applyFirewallRules domains ;;
    flushDNSCache ;;
    set_currentBlock (Some (mkBlock domains endTime blocklistId)) ;;
    saveState ;;
    w <- get ;;
    (if negb (checkupInterval w) then startCheckupTimer else ret tt) ;;
    log ;;
    ret (Success None).

Definition clearBlock : M Response :=
  w <- get ;;
  match currentBlock w with
  | None => ret (Success (Some (JS.lit "No active block")))
  | Some _ =>
      log ;;
      hostsContent <- readHostsFile ;;
      let cleanContent := Hosts.removeBlockFromHosts hostsContent in
      ok <- writeHostsFile cleanContent ;;
      if negb ok then ret (Failure (JS.lit "Failed to clear hosts file"))
      else
        clearFirewallRules ;;
        flushDNSCache ;;
        set_currentBlock None ;;
        saveState ;;
        log ;;
        ret (Success None)
  end.

Definition getStatus : M Response :=
  w <- get ;;
  match currentBlock w with
  | None => ret Inactive
  | Some b =>
      let remaining := Z.max 0 (endTime b - now env) in
      ret (Active (domains b) (endTime b) (blocklistId b) remaining)
  end.

Definition checkBlockIntegrity : M unit :=
  w <- get ;;
  match currentBlock w with
  | None => ret tt
  | Some b =>
      hostsContent <- readHostsFile ;;
      if negb (Hosts.containsBlock hostsContent)
      then log ;;
           let newContent := Hosts.addBlockToHosts hostsContent (domains b) in
           writeHostsFile newContent ;;
           flushDNSCache
      else ret tt
  end.

(** [currentBlock && Date.now() >= currentBlock.endTime] *)
Definition expired (cb : option BlockState) : bool :=
  match cb with
  | Some b => (now env >=? endTime b)%Z
  | None => false
  end.

(** The callback [startCheckupTimer] hands to [setInterval]: one
    reconciliation tick. *)
Definition tick : M unit :=
  w <- get ;;
  if expired (currentBlock w)
  then log ;; clearBlock ;; ret tt
  else
    match currentBlock w with
    | Some _ => checkBlockIntegrity
    | None => stopCheckupTimer
    end.

(* ---------------- IPC server ---------------- *)

Definition handleCommand (command : Command) : M Response :=
  log ;;
  match command with
  | StartBlockCmd domains endTime blocklistId =>
      startBlock domains endTime blocklistId
  | ClearBlockCmd => clearBlock
  | GetStatusCmd => getStatus
  | PingCmd => ret (Success (Some (JS.lit "pong")))
  | OtherCmd action => ret (Failure (JS.lit "Unknown command: " ++ action))
  end.

(** [main], up to [startServer]. *)
Definition main : M unit :=
  log ;;
  loadState ;;
  w <- get ;;
  match currentBlock w with
  | Some _ => startCheckupTimer
  | None => ret tt
  end.

End WithEnv.

(** The module-level variables when the process starts:
    [currentBlock = null], [checkupInterval = null], [hostsBackup = null]. *)
Definition boot (hosts : option JS.str) (file : StateFile) : World :=
  mkWorld None false None hosts file [].

End Daemon.

(* ================================================================== *)
(** ** Vocabulary of the statements about the hosts rule editor *)
(* ================================================================== *)

Module HostsSpec.

Import Hosts.

(** Only white space, as [trimStart] and [trimEnd] see it. *)
Definition allWhite (s : JS.str) : Prop := forallb JS.isWhiteSpace s = true.

Definition MANAGED : JS.str := JS.lit "# Managed by ReDD Block - DO NOT EDIT".

(** The four entries one domain contributes, in the order of the pushes. *)
Definition redirectLines (domain : JS.str) : list JS.str :=
  [ JS.lit "0.0.0.0 " ++ cleanDomain domain;
    JS.lit "0.0.0.0 www." ++ cleanDomain domain;
    JS.lit ":: " ++ cleanDomain domain;
    JS.lit ":: www." ++ cleanDomain domain ].

(** Neither marker occurs in [s]. *)
Definition markerFree (s : JS.str) : Prop :=
  JS.includes s BLOCK_MARKER_START = false /\
  JS.includes s BLOCK_MARKER_END = false.

Definition markerFreeb (s : JS.str) : bool :=
  negb (JS.includes s BLOCK_MARKER_START) &&
  negb (JS.includes s BLOCK_MARKER_END).

(** A hosts file nobody has touched, and a list of domains. *)
Definition hosts_sample : JS.str :=
  JS.lit "127.0.0.1 localhost" ++ LF ++ JS.lit "::1 localhost" ++ LF ++ LF.

Definition domains_sample : list JS.str :=
  [ JS.lit "https://Example.COM/watch?v=1"; JS.lit "news.site.org" ].

(** A complete, empty section followed by one more start marker. *)
Definition hosts_leftover_start : JS.str :=
  BLOCK_MARKER_START ++ LF ++ BLOCK_MARKER_END ++ LF ++ BLOCK_MARKER_START.

(** A section whose end marker line was deleted. *)
Definition hosts_half_section : JS.str :=
  JS.lit "127.0.0.1 localhost" ++ LF ++ LF
    ++ BLOCK_MARKER_START ++ LF ++ JS.lit "0.0.0.0 x.com" ++ LF.

End HostsSpec.

(* ================================================================== *)
(** ** Vocabulary of the statements about the daemon *)
(* ================================================================== *)

Module DaemonSpec.
Import Daemon.

(** What [readHostsFile] hands back: the file, or [''] when unreadable. *)
Definition hostsContent (w : World) : JS.str :=
  match hostsFile w with
  | Some content => content
  | None => JS.lit ""
  end.

(** The events a call adds to the trace. *)
Definition emits {A} (m : M A) (w : World) (evs : list Event) : Prop :=
  trace (snd (m w)) = evs ++ trace w.

Definition hostsWriteFailed (evs : list Event) : Prop :=
  exists content, In (HostsWrite content false) evs.

Definition isFailure (r : Res Response) : Prop :=
  exists error, r = Ret (Failure error).

(** The same surroundings, with other outcomes of the firewall commands
    and of the DNS cache flush. *)
Definition withFailures (env : Env) (fw dns : bool) : Env :=
  mkEnv (now env) (platform env) (dataDirOk env) (hostsWritable env)
        (stateWritable env) fw dns.

(** Surroundings in which everything works, at time [t]. *)
Definition env_ok (t : Z) : Env :=
  mkEnv t OtherPlatform true true true true true.

(** The same, with a hosts file that cannot be written. *)
Definition env_readonly_hosts (t : Z) : Env :=
  mkEnv t OtherPlatform true false true true true.

Definition block_sample : BlockState :=
  mkBlock HostsSpec.domains_sample 5000 (JS.lit "a").

(** A daemon enforcing [block_sample] whose section was deleted from the
    hosts file. *)
Definition world_tampered : World :=
  mkWorld (Some block_sample) true None (Some HostsSpec.hosts_sample)
          (Document (Some block_sample)) [].

(** A daemon enforcing [block_sample] with its section in place. *)
Definition world_enforcing : World :=
  mkWorld (Some block_sample) true None
          (Some (Hosts.addBlockToHosts HostsSpec.hosts_sample
                   HostsSpec.domains_sample))
          (Document (Some block_sample)) [].

End DaemonSpec.

(* ================================================================== *)
(** ** Vocabulary of the statements about the daemon's life cycle *)
(* ================================================================== *)

Module LifeCycleSpec.

Import Daemon.

(** A block that is set is watched: the checkup timer runs. *)
Definition timerOk (w : World) : bool :=
  match currentBlock w with
  | Some _ => checkupInterval w
  | None => true
  end.

(** The process is started again: the module-level variables are new, the
    files are those the old process left. *)
Definition restart (w : World) : World :=
  boot (hostsFile w) (stateFile w).

(** A daemon that has just started on an untouched hosts file. *)
Definition world_fresh : World :=
  boot (Some HostsSpec.hosts_sample) NoFile.

(** A time value [new Date(_).toISOString()] cannot print. *)
Definition endTime_unprintable : Z := 10000000000000000.

End LifeCycleSpec.

Module HostsMoreSpec.

Import Hosts.

(** What is between the markers of a section somebody has edited. *)
Definition body_sample : JS.str :=
  LF ++ JS.lit "0.0.0.0 x.com" ++ LF ++ JS.lit "# edited" ++ LF.

Definition body_sample' : JS.str := LF.

(** Lines of the hosts file behind the section. *)
Definition after_sample : JS.str :=
  LF ++ LF ++ JS.lit "10.0.0.1 nas" ++ LF.

End HostsMoreSpec.

(* ================================================================== *)
(** ** The IPC server: one connection *)
(* ================================================================== *)

Module JSText.

(** [s.trim()] *)
Definition trim (s : JS.str) : JS.str := JS.trimEnd (JS.trimStart s).

(** [s.split(sep)] for a separator of one character. *)
Fixpoint split (sep : ascii) (s : JS.str) : list JS.str :=
  match s with
  | [] => [ [] ]
  | c :: r =>
      if Ascii.eqb c sep then [] :: split sep r
      else match split sep r with
           | l :: ls => (c :: l) :: ls
           | [] => [ [c] ]
           end
  end.

(** [xs.pop()]: what is left of the array, and the element taken off its
    end ([undefined], here [None], when the array is empty). *)
Fixpoint pop (xs : list JS.str) : list JS.str * option JS.str :=
  match xs with
  | [] => ([], None)
  | [x] => ([], Some x)
  | x :: r => let (rest, last) := pop r in (x :: rest, last)
  end.

(** [a === b] on two strings. *)
Definition strictEq (a b : JS.str) : bool :=
  if list_eq_dec ascii_dec a b then true else false.

End JSText.

Module Server.

Import Daemon.
Local Open Scope daemon_scope.

(** What the callback of [net.createServer] keeps for one socket: the
    variable [buffer], and the responses written to the socket so far,
    oldest first (each goes out as [JSON.stringify(response) + '\n']). *)
Record Connection : Type := mkConn {
  buffer : JS.str;
  output : list Response
}.

Section WithParser.

(** The surroundings at the time of the [data] event. *)
Variable env : Env.

(** [JSON.parse(line)] together with the reading of [action], [domains],
    [endTime] and [blocklistId] off the parsed value: [None] when
    [JSON.parse] throws or the value has no fields to read. *)
Variable JSON_parse : JS.str -> option Command.

(** The body of the [for] loop after the blank-line test: the [try] block
    and its [catch]; the result is what is written to the socket. *)
Definition handleLine (line : JS.str) : M Response :=
  tryCatch
    (match JSON_parse line with
     | Some command => handleCommand env command
     | None => throw SyntaxError
     end)
    (fun err => logError err ;; ret (Failure (JS.lit "Invalid JSON"))).

(** [for (const line of lines) { ... }] *)
Fixpoint forEachLine (lines : list JS.str) (output : list Response)
  : M (list Response) :=
  match lines with
  | [] => ret output
  | line :: rest =>
      if negb (JS.truthy (JSText.trim line)) then forEachLine rest output
      else response <- handleLine line ;;
           forEachLine rest (output ++ [response])
  end.

(** The listener of the [data] event. *)
Definition onData (conn : Connection) (data : JS.str) : M Connection :=
  let buffer := buffer conn ++ data in
  let (lines, last) := JSText.pop (JSText.split (ascii_of_nat 10) buffer) in
  let buffer :=
    match last with
    | Some l => if JS.truthy l then l else JS.lit ""
    | None => JS.lit ""
    end in
  output <- forEachLine lines (output conn) ;;
  ret (mkConn buffer output).

End WithParser.

(** A socket that has just connected: [let buffer = '']. *)
Definition connected : Connection := mkConn (JS.lit "") [].

End Server.

Module ServerSpec.

Import Daemon Server.

(** The line feed. *)
Definition NL : ascii := ascii_of_nat 10.

(** No line feed in [s]. *)
Definition oneLine (s : JS.str) : Prop := ~ In NL s.

(** The requests, each closed by a line feed, as they travel. *)
Definition framed (lines : list JS.str) : JS.str :=
  List.concat (map (fun l => l ++ Hosts.LF) lines).

(** The lines the loop does not skip. *)
Definition isRequest (line : JS.str) : bool := JS.truthy (JSText.trim line).

(** A parser for the examples: it takes a line that begins with [ping] for
    the ping command and rejects every other line. *)
Definition parse_ping (line : JS.str) : option Command :=
  if JS.startsWith line (JS.lit "ping") then Some PingCmd else None.

(** Three lines as they arrive, and the beginning of a fourth. *)
Definition lines_sample : list JS.str :=
  [ JS.lit "ping"; JS.lit "  "; JS.lit "bogus" ].

Definition tail_sample : JS.str := JS.lit "pi".

End ServerSpec.

(* ================================================================== *)
(** ** Vocabulary of the statements about the answer to a command *)
(* ================================================================== *)

Module AnswerSpec.

Import Daemon.

(** The call did not return: an exception left it. *)
Definition throws {A : Type} (r : Res A) : Prop := exists err, r = Throw err.

(** The commands that put a block in place or take it away. *)
Definition changesBlock (command : Command) : bool :=
  match command with
  | StartBlockCmd _ _ _ | ClearBlockCmd => true
  | _ => false
  end.

(** A parser for the examples: it takes a line that begins with [start]
    for a start-block command whose [endTime] is beyond the range of
    [Date], and rejects every other line. *)
Definition parse_start (line : JS.str) : option Command :=
  if JS.startsWith line (JS.lit "start")
  then Some (StartBlockCmd HostsSpec.domains_sample
               LifeCycleSpec.endTime_unprintable (JS.lit "a"))
  else None.

End AnswerSpec.

(* ================================================================== *)
(** ** The IPC client: one call of [send] *)
(* ================================================================== *)

Module Client.

Set Implicit Arguments.

(** The error object of the socket's [error] event. *)
Record SocketError : Type := mkError {
  code : JS.str;
  message : JS.str
}.

(** What the socket and the two timers of one [send] can deliver. *)
Inductive Event : Type :=
| Connect
| Data (data : JS.str)
| Error (err : SocketError)
| Close
| ConnectionTimeout            (* the 5000 ms timer fires *)
| ResponseTimeout.             (* the 10000 ms timer fires *)

Section Send.

(** The values [JSON.parse] gives, and [JSON.parse] itself: [None] when it
    throws. *)
Variable Value : Type.
Variable JSON_parse : JS.str -> option Value.

(** [resolve(response)] or [reject(new Error(message))] ([reject(err)]
    hands on the [message] of [err]). *)
Inductive Settled : Type :=
| Resolved (response : Value)
| Rejected (message : JS.str).

(** The variables of the executor of the promise, the two timers (set
    while they wait to fire), the socket, and the promise. *)
Record Send : Type := mkSend {
  responseBuffer : JS.str;
  resolved : bool;
  connectionTimeout : bool;
  responseTimeout : bool;
  destroyed : bool;            (* [socket.destroyed] *)
  written : nat;               (* how often the command was written *)
  promise : option Settled
}.

(** The state when [socket.connect(SOCKET_PATH)] has been called. *)
Definition start : Send :=
  mkSend (JS.lit "") false true true false 0 None.

(** [resolved = true] *)
Definition set_resolved (s : Send) : Send :=
  mkSend (responseBuffer s) true (connectionTimeout s) (responseTimeout s)
         (destroyed s) (written s) (promise s).

(** [clearTimeout(connectionTimeout)]; also what the timer does to itself
    when it fires. *)
Definition clear_connectionTimeout (s : Send) : Send :=
  mkSend (responseBuffer s) (resolved s) false (responseTimeout s)
         (destroyed s) (written s) (promise s).

(** [clearTimeout(responseTimeout)] *)
Definition clear_responseTimeout (s : Send) : Send :=
  mkSend (responseBuffer s) (resolved s) (connectionTimeout s) false
         (destroyed s) (written s) (promise s).

(** [responseBuffer += data.toString()] *)
Definition append (data : JS.str) (s : Send) : Send :=
  mkSend (responseBuffer s ++ data) (resolved s) (connectionTimeout s)
         (responseTimeout s) (destroyed s) (written s) (promise s).

(** [socket.write(JSON.stringify(command) + '\n')] *)
Definition write (s : Send) : Send :=
  mkSend (responseBuffer s) (resolved s) (connectionTimeout s)
         (responseTimeout s) (destroyed s) (S (written s)) (promise s).

(** [resolve] and [reject]: a promise takes its first settlement only. *)
Definition settle (o : Settled) (s : Send) : Send :=
  mkSend (responseBuffer s) (resolved s) (connectionTimeout s)
         (responseTimeout s) (destroyed s) (written s)
         (match promise s with
          | None => Some o
          | Some first => Some first
          end).

Definition resolve (response : Value) (s : Send) : Send :=
  settle (Resolved response) s.

Definition reject (message : JS.str) (s : Send) : Send :=
  settle (Rejected message) s.

(** [cleanup()] *)
Definition cleanup (s : Send) : Send :=
  if negb (destroyed s)
  then mkSend (responseBuffer s) (resolved s) (connectionTimeout s)
              (responseTimeout s) true (written s) (promise s)
  else s.

(** The callback of the connection timer. *)
Definition onConnectionTimeout (s : Send) : Send :=
  if negb (resolved s)
  then
    let s := set_resolved s in
    let s := cleanup s in
    reject (JS.lit "Connection timeout - helper daemon may not be running") s
  else s.

(** The callback of the response timer. *)
Definition onResponseTimeout (s : Send) : Send :=
  if negb (resolved s)
  then
    let s := set_resolved s in
    let s := cleanup s in
    reject (JS.lit "Response timeout") s
  else s.

(** [socket.on('connect', ...)] *)
Definition onConnect (s : Send) : Send :=
  let s := clear_connectionTimeout s in
  write s.

(** [socket.on('data', ...)] *)
Definition onData (data : JS.str) (s : Send) : Send :=
  let s := append data s in
  let newlineIndex := JS.indexOf (responseBuffer s) Hosts.LF in
  if negb (newlineIndex =? -1)%Z
  then
    let responseStr := JS.substring (responseBuffer s) 0 newlineIndex in
    if negb (resolved s)
    then
      let s := set_resolved s in
      let s := clear_connectionTimeout s in
      let s := clear_responseTimeout s in
      let s := cleanup s in
      match JSON_parse responseStr with
      | Some response => resolve response s
      | None =>
          reject (JS.lit "Invalid response from helper: " ++ responseStr) s
      end
    else s
  else s.

(** [socket.on('error', ...)] *)
Definition onError (err : SocketError) (s : Send) : Send :=
  if negb (resolved s)
  then
    let s := set_resolved s in
    let s := clear_connectionTimeout s in
    let s := clear_responseTimeout s in
    let s := cleanup s in
    if JSText.strictEq (code err) (JS.lit "ENOENT")
       || JSText.strictEq (code err) (JS.lit "ECONNREFUSED")
    then reject (JS.lit
           "Helper daemon not running. Please install the helper first.") s
    else reject (message err) s
  else s.

(** [socket.on('close', ...)] *)
Definition onClose (s : Send) : Send :=
  if negb (resolved s)
  then
    let s := set_resolved s in
    let s := clear_connectionTimeout s in
    let s := clear_responseTimeout s in
    reject (JS.lit "Connection closed unexpectedly") s
  else s.

(** One event.  A timer that was cleared, or has fired, does not fire. *)
Definition step (s : Send) (ev : Event) : Send :=
  match ev with
  | Connect => onConnect s
  | Data data => onData data s
  | Error err => onError err s
  | Close => onClose s
  | ConnectionTimeout =>
      if connectionTimeout s
      then onConnectionTimeout (clear_connectionTimeout s)
      else s
  | ResponseTimeout =>
      if responseTimeout s
      then onResponseTimeout (clear_responseTimeout s)
      else s
  end.

(** The events of one call, in the order they arrive. *)
Definition run (s : Send) (events : list Event) : Send :=
  fold_left step events s.

(** [isRunning()], once the promise of [send({action: 'ping'})] has
    settled: [response.success === true], or [false] from the [catch]. *)
Definition isRunning (success : Value -> bool) (o : Settled) : bool :=
  match o with
  | Resolved response => success response
  | Rejected _ => false
  end.

End Send.

Arguments Rejected {Value} message.

Unset Implicit Arguments.

End Client.

Module ClientSpec.

(** A parser for the examples: a line that begins with [ok] is the value
    [true], a line that begins with [no] is [false], every other line is
    rejected. *)
Definition parse_sample (line : JS.str) : option bool :=
  if JS.startsWith line (JS.lit "ok") then Some true
  else if JS.startsWith line (JS.lit "no") then Some false
  else None.

(** An answer that arrives in two pieces, followed by more text. *)
Definition chunks_sample : list JS.str :=
  [ JS.lit "o"; JS.lit "k" ++ Hosts.LF ++ JS.lit "more" ].

End ClientSpec.

(* ================================================================== *)
(** ** The main process: the hosts text of the [block-websites] handler *)
(* ================================================================== *)

Module BlockWebsites.

(** The constants [blockMarkerStart] and [blockMarkerEnd] of the handler;
    they are spelled as the daemon's. *)
Definition blockMarkerStart : JS.str := JS.lit "# BEGIN REDD BLOCK".
Definition blockMarkerEnd : JS.str := JS.lit "# END REDD BLOCK".

(** The string ['\t']. *)
Definition TAB : JS.str := [ascii_of_nat 9].

(** [domains.map(d => d.replace(/^https?:\/\//, '').replace(/\/.*$/, ''))] *)
Definition cleanDomains (domains : list JS.str) : list JS.str :=
  map (fun d => JS.replacePath (JS.replaceScheme d)) domains.

(** One turn of the loop that builds [hostsEntries]. *)
Definition addEntries (hostsEntries domain : JS.str) : JS.str :=
  let hostsEntries :=
    hostsEntries ++ JS.lit "0.0.0.0" ++ TAB ++ domain ++ Hosts.LF in
  let hostsEntries :=
    hostsEntries ++ JS.lit "::" ++ TAB ++ domain ++ Hosts.LF in
  let hostsEntries :=
    hostsEntries ++ JS.lit "0.0.0.0" ++ TAB ++ JS.lit "www." ++ domain
      ++ Hosts.LF in
  hostsEntries ++ JS.lit "::" ++ TAB ++ JS.lit "www." ++ domain ++ Hosts.LF.

(** The variable [hostsEntries] after the loop and the end marker. *)
Definition hostsEntries (cleanDomains : list JS.str) : JS.str :=
  let hostsEntries := Hosts.LF ++ blockMarkerStart ++ Hosts.LF in
  let hostsEntries := fold_left addEntries cleanDomains hostsEntries in
  hostsEntries ++ blockMarkerEnd ++ Hosts.LF.

(** The constant [newHosts]: what the handler writes to the temporary
    file that is then copied over the hosts file.  [currentHosts] is the
    hosts file as read (or [''] when it cannot be read). *)
Definition newHosts (currentHosts hostsEntries : JS.str) : JS.str :=
  let startIdx := JS.indexOf currentHosts blockMarkerStart in
  let endIdx := JS.indexOf currentHosts blockMarkerEnd in
  let currentHosts :=
    if negb (startIdx =? -1)%Z && negb (endIdx =? -1)%Z
    then JS.substring currentHosts 0 startIdx
           ++ JS.substringFrom currentHosts
                (endIdx + JS.length blockMarkerEnd)
    else currentHosts in
  JSText.trim currentHosts ++ hostsEntries.

(** The text for a list of domains that is not empty (for the empty list
    the handler takes its other branch and edits the file with [sed]). *)
Definition blockWebsitesHosts (currentHosts : JS.str)
           (domains : list JS.str) : JS.str :=
  newHosts currentHosts (hostsEntries (cleanDomains domains)).

End BlockWebsites.

Module BlockWebsitesSpec.

Import BlockWebsites.

(** The four lines of one domain, as one text. *)
Definition entries (domain : JS.str) : JS.str :=
  JS.lit "0.0.0.0" ++ TAB ++ domain ++ Hosts.LF
    ++ JS.lit "::" ++ TAB ++ domain ++ Hosts.LF
    ++ JS.lit "0.0.0.0" ++ TAB ++ JS.lit "www." ++ domain ++ Hosts.LF
    ++ JS.lit "::" ++ TAB ++ JS.lit "www." ++ domain ++ Hosts.LF.

(** The end marker does not occur in [s]. *)
Definition endFree (s : JS.str) : Prop :=
  JS.includes s Hosts.BLOCK_MARKER_END = false.

End BlockWebsitesSpec.

(* ================================================================== *)
(** ** Facts about the string primitives *)
(* ================================================================== *)

Module JSFacts.

Import HostsSpec.

Lemma startsWith_app (p r : JS.str) : JS.startsWith (p ++ r) p = true.
Proof.
  induction p as [|a p IH]; simpl; [reflexivity|].
  now rewrite Ascii.eqb_refl, IH.
Qed.

Lemma startsWith_inv (p s : JS.str) :
  JS.startsWith s p = true -> exists r, s = p ++ r.
Proof.
  revert s; induction p as [|a p IH]; intros s H; simpl in *.
  - now exists s.
  - destruct s as [|b s]; [discriminate|].
    apply andb_true_iff in H as [Hab Hs].
    apply Ascii.eqb_eq in Hab; subst b.
    destruct (IH _ Hs) as [r ->]. now exists r.
Qed.

Lemma startsWith_weaken (p s t : JS.str) :
  JS.startsWith s p = true -> JS.startsWith (s ++ t) p = true.
Proof.
  intros H. destruct (startsWith_inv _ _ H) as [r ->].
  rewrite <- app_assoc. apply startsWith_app.
Qed.

(** A pattern without the separator cannot run over a separator. *)
Lemma startsWith_sep (p s t : JS.str) (x : ascii) :
  ~ In x p -> JS.startsWith (s ++ x :: t) p = true -> JS.startsWith s p = true.
Proof.
  revert s; induction p as [|a p IH]; intros s Hx H; simpl in *; [reflexivity|].
  destruct s as [|b s]; simpl in H.
  - apply andb_true_iff in H as [Hab _].
    apply Ascii.eqb_eq in Hab. exfalso; apply Hx; now left.
  - apply andb_true_iff in H as [Hab Hs]. rewrite Hab; simpl.
    apply IH with (s := s); [|exact Hs]. intros Hin; apply Hx; now right.
Qed.

Lemma find_cons (c : ascii) (s p : JS.str) :
  JS.find (c :: s) p =
  if JS.startsWith (c :: s) p then Some 0%nat else option_map S (JS.find s p).
Proof. reflexivity. Qed.

Lemma find_here (p c : JS.str) : JS.find (p ++ c) p = Some 0%nat.
Proof.
  destruct (p ++ c) eqn:E.
  - destruct p; [reflexivity | discriminate].
  - rewrite find_cons, <- E. now rewrite startsWith_app.
Qed.

Lemma find_nil_l (p : JS.str) : p <> [] -> JS.find [] p = None.
Proof. destruct p; [congruence | reflexivity]. Qed.

Lemma find_None_nonempty (s p : JS.str) : JS.find s p = None -> p <> [].
Proof. intros H ->. destruct s; discriminate. Qed.

Lemma find_cons_None (c : ascii) (s p : JS.str) :
  JS.find (c :: s) p = None <->
  JS.startsWith (c :: s) p = false /\ JS.find s p = None.
Proof.
  rewrite find_cons.
  destruct (JS.startsWith (c :: s) p); destruct (JS.find s p); simpl;
    split; try tauto; try discriminate; intros [? ?]; discriminate.
Qed.

Lemma find_None_app_l (a b p : JS.str) :
  JS.find (a ++ b) p = None -> JS.find a p = None.
Proof.
  induction a as [|c a IH]; intros H.
  - apply find_nil_l. now apply find_None_nonempty in H.
  - rewrite <- app_comm_cons in H.
    apply find_cons_None in H as [H1 H2]. apply find_cons_None. split.
    + destruct (JS.startsWith (c :: a) p) eqn:E; [|reflexivity].
      apply startsWith_weaken with (t := b) in E.
      rewrite <- app_comm_cons in E. congruence.
    + now apply IH.
Qed.

(** A string that lacks one character of the pattern has no occurrence. *)
Lemma find_missing_char (x : ascii) (s p : JS.str) :
  In x p -> ~ In x s -> JS.find s p = None.
Proof.
  intros Hp. induction s as [|c s IH]; intros Hs.
  - apply find_nil_l. intros ->. contradiction.
  - apply find_cons_None. split.
    + destruct (JS.startsWith (c :: s) p) eqn:E; [|reflexivity].
      apply startsWith_inv in E as [r E]. exfalso; apply Hs.
      rewrite E. apply in_or_app. now left.
    + apply IH. intros Hin; apply Hs; now right.
Qed.

Lemma find_sep_None (x : ascii) (a b p : JS.str) :
  ~ In x p -> JS.find a p = None -> JS.find b p = None ->
  JS.find (a ++ x :: b) p = None.
Proof.
  intros Hx Ha Hb. induction a as [|c a IH]; simpl app.
  - apply find_cons_None. split; [|exact Hb].
    destruct (JS.startsWith (x :: b) p) eqn:E; [|reflexivity].
    apply (startsWith_sep p [] b x Hx) in E.
    destruct p; [now apply find_None_nonempty in Hb | discriminate].
  - apply find_cons_None in Ha as [H1 H2].
    apply find_cons_None. split; [|now apply IH].
    destruct (JS.startsWith (c :: a ++ x :: b) p) eqn:E; [|reflexivity].
    apply (startsWith_sep p (c :: a) b x Hx) in E. congruence.
Qed.

(** The first occurrence sits right after the separator when nothing
    before the separator matches. *)
Lemma find_sep_Some (x : ascii) (a c p : JS.str) :
  ~ In x p -> JS.find a p = None ->
  JS.find (a ++ x :: p ++ c) p = Some (S (List.length a)).
Proof.
  intros Hx Ha. induction a as [|d a IH]; simpl app.
  - rewrite find_cons.
    destruct (JS.startsWith (x :: p ++ c) p) eqn:E.
    + apply (startsWith_sep p [] (p ++ c) x Hx) in E.
      destruct p; [now apply find_None_nonempty in Ha | discriminate].
    + now rewrite find_here.
  - apply find_cons_None in Ha as [H1 H2].
    rewrite find_cons.
    destruct (JS.startsWith (d :: a ++ x :: p ++ c) p) eqn:E.
    + apply (startsWith_sep p (d :: a) (p ++ c) x Hx) in E. congruence.
    + rewrite (IH H2). reflexivity.
Qed.


(** [includes] and [indexOf] agree, and both say whether the pattern
    occurs. *)
Lemma includes_find (s p : JS.str) :
  JS.includes s p = match JS.find s p with Some _ => true | None => false end.
Proof.
  induction s as [|c s IH].
  - simpl. destruct (JS.startsWith [] p); reflexivity.
  - rewrite find_cons. simpl JS.includes. rewrite IH.
    destruct (JS.startsWith (c :: s) p); [reflexivity|].
    destruct (JS.find s p); reflexivity.
Qed.

Lemma includes_occurs (s p : JS.str) :
  JS.includes s p = true <-> exists a b, s = a ++ p ++ b.
Proof.
  split.
  - induction s as [|c s IH]; simpl; intros H.
    + rewrite orb_false_r in H. apply startsWith_inv in H as [r ->].
      now exists [], r.
    + apply orb_true_iff in H as [H|H].
      * apply startsWith_inv in H as [r ->]. now exists [], r.
      * destruct (IH H) as (a & b & ->). now exists (c :: a), b.
  - intros (a & b & ->). induction a as [|c a IH]; simpl app.
    + destruct (p ++ b) eqn:E.
      * destruct p; [reflexivity | discriminate].
      * simpl JS.includes. rewrite <- E, startsWith_app. reflexivity.
    + simpl JS.includes. rewrite IH. apply orb_true_r.
Qed.

Lemma find_Some_split (s p : JS.str) (i : nat) :
  JS.find s p = Some i ->
  exists a b, s = a ++ p ++ b /\ List.length a = i /\
              forall a' b', s = a' ++ p ++ b' -> (i <= List.length a')%nat.
Proof.
  revert i; induction s as [|c s IH]; intros i H.
  - simpl in H. destruct (JS.startsWith [] p) eqn:E; [|discriminate].
    injection H as <-. apply startsWith_inv in E as [r E].
    exists [], r. repeat split; auto. intros; lia.
  - rewrite find_cons in H.
    destruct (JS.startsWith (c :: s) p) eqn:E.
    + injection H as <-. apply startsWith_inv in E as [r E].
      exists [], r. repeat split; auto. intros; lia.
    + destruct (JS.find s p) as [k|] eqn:F; [|discriminate].
      injection H as <-.
      destruct (IH k eq_refl) as (a & b & -> & Hl & Hmin).
      exists (c :: a), b. repeat split; simpl; auto.
      intros [|c' a'] b' Eq; simpl in Eq.
      * rewrite Eq, startsWith_app in E. discriminate.
      * injection Eq as _ Eq. apply Hmin in Eq. simpl; lia.
Qed.

(* ---------------- trimming ---------------- *)

Lemma trimStart_white (ws s : JS.str) :
  allWhite ws -> JS.trimStart (ws ++ s) = JS.trimStart s.
Proof.
  unfold allWhite. induction ws as [|c ws IH]; simpl; [reflexivity|].
  intros H. apply andb_true_iff in H as [Hc Hws]. now rewrite Hc, IH.
Qed.

Lemma trimStart_split (s : JS.str) :
  exists ws, allWhite ws /\ s = ws ++ JS.trimStart s.
Proof.
  induction s as [|c s (ws & Hws & IH)].
  - now exists [].
  - simpl. destruct (JS.isWhiteSpace c) eqn:E.
    + exists (c :: ws). split; [unfold allWhite; simpl; now rewrite E|].
      simpl. now rewrite <- IH.
    + now exists [].
Qed.

Lemma trimStart_idem (s : JS.str) :
  JS.trimStart (JS.trimStart s) = JS.trimStart s.
Proof.
  induction s as [|c s IH]; simpl; [reflexivity|].
  destruct (JS.isWhiteSpace c) eqn:E; [exact IH|]. simpl. now rewrite E.
Qed.

Lemma allWhite_rev (ws : JS.str) : allWhite ws -> allWhite (rev ws).
Proof.
  unfold allWhite. rewrite !forallb_forall. intros H x Hx.
  apply H. now apply in_rev.
Qed.

Lemma trimEnd_white (s ws : JS.str) :
  allWhite ws -> JS.trimEnd (s ++ ws) = JS.trimEnd s.
Proof.
  intros H. unfold JS.trimEnd. rewrite rev_app_distr.
  rewrite trimStart_white; [reflexivity | now apply allWhite_rev].
Qed.

Lemma trimEnd_split (s : JS.str) :
  exists ws, allWhite ws /\ s = JS.trimEnd s ++ ws.
Proof.
  destruct (trimStart_split (rev s)) as (ws & Hws & E).
  exists (rev ws). split; [now apply allWhite_rev|].
  unfold JS.trimEnd. rewrite <- rev_app_distr, <- E. symmetry.
  apply rev_involutive.
Qed.

Lemma trimEnd_idem (s : JS.str) : JS.trimEnd (JS.trimEnd s) = JS.trimEnd s.
Proof.
  unfold JS.trimEnd. rewrite rev_involutive. now rewrite trimStart_idem.
Qed.

(* ---------------- substring ---------------- *)

Lemma substring_prefix (a b : JS.str) :
  JS.substring (a ++ b) 0 (Z.of_nat (List.length a)) = a.
Proof.
  unfold JS.substring, JS.clamp. rewrite Nat2Z.id, length_app.
  simpl Z.to_nat. 
  replace (Nat.min 0 _) with 0%nat by lia.
  replace (Nat.min (List.length a) _) with (List.length a) by lia.
  simpl Nat.min. rewrite Nat.max_0_l, Nat.sub_0_r. simpl skipn.
  rewrite firstn_app, Nat.sub_diag, firstn_all. simpl. apply app_nil_r.
Qed.

Lemma substringFrom_suffix (a b : JS.str) :
  JS.substringFrom (a ++ b) (Z.of_nat (List.length a)) = b.
Proof.
  unfold JS.substringFrom, JS.clamp. rewrite Nat2Z.id, length_app.
  replace (Nat.min (List.length a) _) with (List.length a) by lia.
  rewrite skipn_app, skipn_all, Nat.sub_diag. reflexivity.
Qed.

(* ---------------- join ---------------- *)

Lemma join_cons (sep x : JS.str) (xs : list JS.str) :
  xs <> [] -> JS.join sep (x :: xs) = x ++ sep ++ JS.join sep xs.
Proof. destruct xs; [congruence | reflexivity]. Qed.

Lemma join_app (sep : JS.str) (xs ys : list JS.str) :
  xs <> [] -> ys <> [] ->
  JS.join sep (xs ++ ys) = JS.join sep xs ++ sep ++ JS.join sep ys.
Proof.
  intros Hx Hy. induction xs as [|x xs IH]; [congruence|].
  destruct xs as [|x' xs].
  - simpl app. now rewrite join_cons.
  - rewrite <- app_comm_cons. rewrite join_cons by (simpl; discriminate).
    rewrite IH by discriminate. rewrite (join_cons sep x (x' :: xs))
      by discriminate.
    now rewrite <- !app_assoc.
Qed.

Lemma find_join_None (x : ascii) (p : JS.str) (xs : list JS.str) :
  ~ In x p -> p <> [] -> Forall (fun l => JS.find l p = None) xs ->
  JS.find (JS.join [x] xs) p = None.
Proof.
  intros Hx Hp H. induction H as [|l xs Hl Hxs IH].
  - now apply find_nil_l.
  - destruct xs as [|l' xs]; [exact Hl|].
    rewrite join_cons by discriminate. simpl app.
    now apply find_sep_None.
Qed.

(* ---------------- lower case ---------------- *)

Lemma lowerChar_not_upper (c : ascii) :
  let n := JS.code (JS.lowerChar c) in ((65 <=? n) && (n <=? 90))%N = false.
Proof.
  destruct c as [[] [] [] [] [] [] [] []]; reflexivity.
Qed.

Lemma toLowerCase_no_E (s : JS.str) : ~ In "E"%char (JS.toLowerCase s).
Proof.
  unfold JS.toLowerCase. intros H. apply in_map_iff in H as (c & Hc & _).
  pose proof (lowerChar_not_upper c) as L. simpl in L. rewrite Hc in L.
  discriminate.
Qed.

End JSFacts.

(* ================================================================== *)
(** ** Facts about the hosts rule editor *)
(* ================================================================== *)

Module HostsFacts.

Import Hosts HostsSpec.

Lemma markerFreeb_spec (s : JS.str) : markerFreeb s = true <-> markerFree s.
Proof.
  unfold markerFreeb, markerFree.
  rewrite andb_true_iff, !negb_true_iff. tauto.
Qed.

Lemma includes_false_find (s p : JS.str) :
  JS.includes s p = false <-> JS.find s p = None.
Proof.
  rewrite JSFacts.includes_find. destruct (JS.find s p); split; congruence.
Qed.

Lemma markerFree_find (s : JS.str) :
  markerFree s <->
  JS.find s BLOCK_MARKER_START = None /\ JS.find s BLOCK_MARKER_END = None.
Proof. unfold markerFree. now rewrite !includes_false_find. Qed.

Lemma markerFree_prefix (a b : JS.str) : markerFree (a ++ b) -> markerFree a.
Proof.
  rewrite !markerFree_find. intros [H1 H2].
  split; eapply JSFacts.find_None_app_l; eassumption.
Qed.

Lemma markerFree_trimEnd (s : JS.str) : markerFree s -> markerFree (JS.trimEnd s).
Proof.
  destruct (JSFacts.trimEnd_split s) as (ws & _ & E). intros H.
  rewrite E in H. now apply markerFree_prefix in H.
Qed.

Lemma fold_pushDomain (domains : list JS.str) (acc : list JS.str) :
  fold_left pushDomain domains acc = acc ++ flat_map redirectLines domains.
Proof.
  revert acc; induction domains as [|d ds IH]; intros acc; simpl.
  - now rewrite app_nil_r.
  - rewrite IH. unfold pushDomain, JS.push. now rewrite <- !app_assoc.
Qed.

Lemma blockLines_shape (domains : list JS.str) :
  blockLines domains =
  [ JS.lit ""; BLOCK_MARKER_START; MANAGED ]
    ++ flat_map redirectLines domains ++ [ BLOCK_MARKER_END; JS.lit "" ].
Proof.
  unfold blockLines, JS.push. rewrite fold_pushDomain.
  now rewrite <- !app_assoc.
Qed.

Lemma addBlockToHosts_join (content : JS.str) (domains : list JS.str) :
  addBlockToHosts content domains =
  JS.join LF (JS.trimEnd (removeBlockFromHosts content) :: blockLines domains).
Proof.
  unfold addBlockToHosts. rewrite JSFacts.join_cons; [reflexivity|].
  rewrite blockLines_shape. discriminate.
Qed.

Lemma removeBlockFromHosts_no_start (content : JS.str) :
  JS.includes content BLOCK_MARKER_START = false ->
  removeBlockFromHosts content = content.
Proof.
  intros H. apply includes_false_find in H.
  unfold removeBlockFromHosts, JS.indexOf. now rewrite H.
Qed.

Lemma redirectLines_markerFree (domains : list JS.str) :
  Forall markerFree (flat_map redirectLines domains).
Proof.
  induction domains as [|d ds IH]; simpl; [constructor|].
  assert (F : forall pre, ~ In "E"%char pre ->
                          markerFree (pre ++ cleanDomain d)).
  { intros pre Hpre. apply markerFree_find.
    split; apply JSFacts.find_missing_char with (x := "E"%char);
      try (intros H; apply in_app_or in H as [H|H];
           [now apply Hpre | now apply JSFacts.toLowerCase_no_E in H]);
      simpl; tauto. }
  assert (N : forall pre, (if in_dec ascii_dec "E"%char pre then false else true)
                          = true -> ~ In "E"%char pre).
  { intros pre Hd Hin. destruct (in_dec ascii_dec "E"%char pre); easy. }
  apply Forall_cons; [apply (F (JS.lit "0.0.0.0 ")), N; reflexivity|].
  apply Forall_cons; [apply (F (JS.lit "0.0.0.0 www.")), N; reflexivity|].
  apply Forall_cons; [apply (F (JS.lit ":: ")), N; reflexivity|].
  apply Forall_cons; [apply (F (JS.lit ":: www.")), N; reflexivity|].
  exact IH.
Qed.

(** Removing the section from a text that ends in a freshly rendered
    section gives back what was in front of it. *)
Lemma remove_rendered (T : JS.str) (lines : list JS.str) :
  markerFree T -> Forall markerFree lines ->
  removeBlockFromHosts
    (JS.join LF (T :: [ JS.lit ""; BLOCK_MARKER_START; MANAGED ]
                   ++ lines ++ [ BLOCK_MARKER_END; JS.lit "" ]))
  = JS.trimEnd T.
Proof.
  intros HT Hl.
  set (nl := ascii_of_nat 10).
  assert (NS : ~ In nl BLOCK_MARKER_START) by (simpl; intuition discriminate).
  assert (NE : ~ In nl BLOCK_MARKER_END) by (simpl; intuition discriminate).
  set (xs := [T; JS.lit ""; BLOCK_MARKER_START; MANAGED] ++ lines).
  set (rest := MANAGED :: lines ++ [BLOCK_MARKER_END; JS.lit ""]).
  set (R := JS.join LF (T :: [ JS.lit ""; BLOCK_MARKER_START; MANAGED ]
                          ++ lines ++ [ BLOCK_MARKER_END; JS.lit "" ])).
  (* the text, cut at the start marker *)
  assert (R1 : R = (T ++ [nl]) ++ nl :: BLOCK_MARKER_START
                     ++ LF ++ JS.join LF rest).
  { unfold R. change (T :: [JS.lit ""; BLOCK_MARKER_START; MANAGED]
                        ++ lines ++ [BLOCK_MARKER_END; JS.lit ""])
      with ([T; JS.lit ""] ++ BLOCK_MARKER_START :: rest).
    rewrite JSFacts.join_app by discriminate.
    rewrite (JSFacts.join_cons LF BLOCK_MARKER_START rest)
      by discriminate.
    reflexivity. }
  (* the text, cut at the end marker *)
  assert (R2 : R = JS.join LF xs ++ nl :: BLOCK_MARKER_END ++ [nl]).
  { unfold R. change (T :: [JS.lit ""; BLOCK_MARKER_START; MANAGED]
                        ++ lines ++ [BLOCK_MARKER_END; JS.lit ""])
      with (xs ++ [BLOCK_MARKER_END; JS.lit ""]).
    rewrite JSFacts.join_app by discriminate. reflexivity. }
  apply markerFree_find in HT as [HTs HTe].
  assert (FS : JS.find R BLOCK_MARKER_START = Some (S (List.length (T ++ [nl])))).
  { rewrite R1. apply JSFacts.find_sep_Some; [exact NS|].
    change (T ++ [nl]) with (T ++ nl :: []).
    apply JSFacts.find_sep_None; auto. }
  assert (FE : JS.find R BLOCK_MARKER_END = Some (S (List.length (JS.join LF xs)))).
  { rewrite R2. apply JSFacts.find_sep_Some; [exact NE|].
    apply JSFacts.find_join_None with (x := nl); [exact NE | discriminate |].
    unfold xs. repeat constructor; auto.
    apply Forall_forall. intros l Hin.
    rewrite Forall_forall in Hl. apply Hl in Hin.
    now apply markerFree_find in Hin. }
  unfold removeBlockFromHosts, JS.indexOf. fold R. rewrite FS, FE.
  destruct (Z.of_nat (S (List.length (T ++ [nl]))) =? -1)%Z eqn:E;
    [apply Z.eqb_eq in E; lia|].
  destruct (Z.of_nat (S (List.length (JS.join LF xs))) =? -1)%Z eqn:E';
    [apply Z.eqb_eq in E'; lia|].
  simpl negb. cbv iota.
  (* before *)
  assert (B : JS.substring R 0 (Z.of_nat (S (List.length (T ++ [nl]))))
              = T ++ [nl; nl]).
  { replace (S (List.length (T ++ [nl])))
      with (List.length (T ++ [nl; nl]))
      by (rewrite !length_app; simpl; lia).
    rewrite R1.
    replace ((T ++ [nl]) ++ nl :: BLOCK_MARKER_START ++ LF ++ JS.join LF rest)
      with ((T ++ [nl; nl]) ++ BLOCK_MARKER_START ++ LF ++ JS.join LF rest)
      by (now rewrite <- !app_assoc).
    apply JSFacts.substring_prefix. }
  (* after *)
  assert (A : JS.substringFrom R
                (Z.of_nat (S (List.length (JS.join LF xs)))
                 + JS.length BLOCK_MARKER_END) = [nl]).
  { unfold JS.length. rewrite <- Nat2Z.inj_add.
    replace (S (List.length (JS.join LF xs)) + List.length BLOCK_MARKER_END)%nat
      with (List.length (JS.join LF xs ++ nl :: BLOCK_MARKER_END))
      by (rewrite length_app; simpl; lia).
    rewrite R2.
    replace (JS.join LF xs ++ nl :: BLOCK_MARKER_END ++ [nl])
      with ((JS.join LF xs ++ nl :: BLOCK_MARKER_END) ++ [nl])
      by (rewrite <- app_assoc; reflexivity).
    apply JSFacts.substringFrom_suffix. }
  rewrite B, A. simpl JS.trimStart. simpl JS.truthy. cbv iota.
  rewrite app_nil_r. apply JSFacts.trimEnd_white. reflexivity.
Qed.

Lemma remove_add (content : JS.str) (domains : list JS.str) :
  markerFree (removeBlockFromHosts content) ->
  removeBlockFromHosts (addBlockToHosts content domains)
  = JS.trimEnd (removeBlockFromHosts content).
Proof.
  intros H. rewrite addBlockToHosts_join, blockLines_shape.
  rewrite remove_rendered.
  - apply JSFacts.trimEnd_idem.
  - now apply markerFree_trimEnd.
  - apply redirectLines_markerFree.
Qed.

Lemma addBlockToHosts_containsBlock (content : JS.str) (domains : list JS.str) :
  containsBlock (addBlockToHosts content domains) = true.
Proof.
  unfold containsBlock. apply JSFacts.includes_occurs.
  rewrite addBlockToHosts_join, blockLines_shape.
  exists (JS.trimEnd (removeBlockFromHosts content) ++ LF ++ LF).
  eexists.
  change (JS.trimEnd (removeBlockFromHosts content)
          :: [JS.lit ""; BLOCK_MARKER_START; MANAGED]
             ++ flat_map redirectLines domains ++ [BLOCK_MARKER_END; JS.lit ""])
    with ([JS.trimEnd (removeBlockFromHosts content); JS.lit ""]
          ++ BLOCK_MARKER_START
             :: (MANAGED :: flat_map redirectLines domains
                  ++ [BLOCK_MARKER_END; JS.lit ""])).
  rewrite JSFacts.join_app by discriminate.
  rewrite JSFacts.join_cons by discriminate.
  simpl JS.join. rewrite <- !app_assoc. reflexivity.
Qed.

End HostsFacts.

(* ================================================================== *)
(** ** The hosts rule editor: section layout, removal, round trip *)
(* ================================================================== *)

Module HostsTheorems.

Import Hosts HostsSpec HostsFacts.

Lemma replaceScheme_http (s : JS.str) :
  JS.replaceScheme (JS.lit "http://" ++ s) = s.
Proof. reflexivity. Qed.

Lemma replaceScheme_https (s : JS.str) :
  JS.replaceScheme (JS.lit "https://" ++ s) = s.
Proof. reflexivity. Qed.


Lemma replacePath_no_slash (a : JS.str) :
  ~ In "/"%char a -> JS.replacePath a = a.
Proof.
  intros Ha. induction a as [|c a IH]; simpl; [reflexivity|].
  destruct (Ascii.eqb_spec c "/"%char) as [->|_].
  - exfalso; apply Ha; now left.
  - simpl. rewrite IH; [reflexivity|]. intros H; apply Ha; now right.
Qed.




(** C8: with a start marker and no end marker, what is left is the text in
    front of the first start marker, without trailing white space; nothing
    from the marker on survives.  Without a start marker the content comes
    back as it is. *)
Theorem removeBlockFromHosts_fail_safe (content : JS.str) :
  (JS.includes content BLOCK_MARKER_START = true ->
   JS.includes content BLOCK_MARKER_END = false ->
   exists before rest,
     content = before ++ BLOCK_MARKER_START ++ rest /\
     (forall a b, content = a ++ BLOCK_MARKER_START ++ b ->
                  (List.length before <= List.length a)%nat) /\
     removeBlockFromHosts content = JS.trimEnd before /\
     JS.includes (removeBlockFromHosts content) BLOCK_MARKER_START = false)
  /\
  (JS.includes content BLOCK_MARKER_START = false ->
   removeBlockFromHosts content = content).
Proof.
  split; [|apply removeBlockFromHosts_no_start].
  intros Hs He. apply includes_false_find in He.
  rewrite JSFacts.includes_find in Hs.
  destruct (JS.find content BLOCK_MARKER_START) as [i|] eqn:F; [|discriminate].
  destruct (JSFacts.find_Some_split _ _ _ F) as (before & rest & E & Hl & Hmin).
  assert (R : removeBlockFromHosts content = JS.trimEnd before).
  { unfold removeBlockFromHosts, JS.indexOf. rewrite F, He.
    destruct (Z.of_nat i =? -1)%Z eqn:Ei; [apply Z.eqb_eq in Ei; lia|].
    simpl. rewrite app_nil_r. f_equal.
    rewrite E, <- Hl. apply JSFacts.substring_prefix. }
  exists before, rest. repeat split; auto.
  - intros a b Eab. rewrite Hl. eapply Hmin; eassumption.
  - rewrite R. destruct (JS.includes (JS.trimEnd before) BLOCK_MARKER_START)
      eqn:I; [|reflexivity].
    apply JSFacts.includes_occurs in I as (a & b & I).
    destruct (JSFacts.trimEnd_split before) as (ws & _ & Ews).
    assert (Hc : content = a ++ BLOCK_MARKER_START
                             ++ (b ++ ws ++ BLOCK_MARKER_START ++ rest)).
    { rewrite E at 1. rewrite Ews at 1. rewrite I.
      now rewrite <- !app_assoc. }
    apply Hmin in Hc.
    assert (List.length before = List.length (JS.trimEnd before ++ ws))
      by now rewrite <- Ews.
    rewrite I, !length_app in H. simpl in H. lia.
Qed.

Lemma removeBlockFromHosts_fail_safe_witness :
  JS.includes hosts_half_section BLOCK_MARKER_START = true /\
  JS.includes hosts_half_section BLOCK_MARKER_END = false /\
  exists before rest,
    hosts_half_section = before ++ BLOCK_MARKER_START ++ rest /\
    removeBlockFromHosts hosts_half_section = JS.trimEnd before.
Proof.
  split; [reflexivity|]. split; [reflexivity|].
  destruct (proj1 (removeBlockFromHosts_fail_safe hosts_half_section)
              eq_refl eq_refl) as (before & rest & E & _ & R & _).
  exists before, rest. split; [exact E | exact R].
Defined.

(** C6: on content without markers, inserting a section and removing it
    again gives the content back except for its trailing white space. *)
Theorem remove_after_add_round_trip (content : JS.str)
        (domains : list JS.str) :
  markerFree content ->
  removeBlockFromHosts (addBlockToHosts content domains) = JS.trimEnd content
  /\ exists ws, allWhite ws /\
       content = removeBlockFromHosts (addBlockToHosts content domains) ++ ws.
Proof.
  intros H.
  assert (E : removeBlockFromHosts content = content)
    by (apply removeBlockFromHosts_no_start, H).
  assert (R : removeBlockFromHosts (addBlockToHosts content domains)
              = JS.trimEnd content).
  { rewrite remove_add; rewrite E; auto. }
  split; [exact R|]. rewrite R. apply JSFacts.trimEnd_split.
Qed.

Lemma remove_after_add_round_trip_witness :
  markerFree hosts_sample /\
  removeBlockFromHosts (addBlockToHosts hosts_sample domains_sample)
  = JS.trimEnd hosts_sample.
Proof.
  assert (H : markerFree hosts_sample) by (split; reflexivity).
  split; [exact H|].
  exact (proj1 (remove_after_add_round_trip hosts_sample domains_sample H)).
Defined.

(** C5, for content from which removal leaves no marker behind (content
    without markers; content with one section and no other marker):
    inserting the same list twice gives what inserting it once gives. *)
Theorem addBlockToHosts_idempotent (content : JS.str)
        (domains : list JS.str) :
  markerFree (removeBlockFromHosts content) ->
  addBlockToHosts (addBlockToHosts content domains) domains
  = addBlockToHosts content domains.
Proof.
  intros H. rewrite (addBlockToHosts_join (addBlockToHosts content domains)).
  rewrite remove_add by exact H. rewrite JSFacts.trimEnd_idem.
  symmetry. apply addBlockToHosts_join.
Qed.

Lemma addBlockToHosts_idempotent_witness :
  markerFree (removeBlockFromHosts hosts_sample) /\
  addBlockToHosts (addBlockToHosts hosts_sample domains_sample) domains_sample
  = addBlockToHosts hosts_sample domains_sample.
Proof.
  assert (H : markerFree (removeBlockFromHosts hosts_sample))
    by (split; reflexivity).
  split; [exact H|].
  exact (addBlockToHosts_idempotent hosts_sample domains_sample H).
Defined.

(** C5, counterexample for arbitrary content: a start marker left over
    after a complete section is paired with the end marker of the section
    the first insertion appended, and the second insertion differs. *)
Lemma addBlockToHosts_not_idempotent :
  addBlockToHosts (addBlockToHosts hosts_leftover_start domains_sample)
                  domains_sample
  <> addBlockToHosts hosts_leftover_start domains_sample.
Proof. vm_compute. discriminate. Qed.

End HostsTheorems.

(* ================================================================== *)
(** ** The daemon: loading, commands, reconciliation tick *)
(* ================================================================== *)

Module DaemonFacts.
Import Daemon DaemonSpec.

Ltac run :=
  cbv [startBlock clearBlock getStatus checkBlockIntegrity tick main
       handleCommand loadState saveState expired
       readHostsFile writeHostsFile backupHostsFile
       fs_readHosts fs_writeHosts fs_writeState ensureDataDir
       applyFirewallRules applyFirewallRulesMacOS applyFirewallRulesWindows
       clearFirewallRules clearFirewallRulesMacOS clearFirewallRulesWindows
       pf_load pf_flush netsh_delete_rule exec_flush flushDNSCache
       startCheckupTimer stopCheckupTimer
       bind ret throw tryCatch get emit log logError Date_toISOString
       set_currentBlock set_checkupInterval set_hostsBackup set_hostsFile
       set_stateFile
       currentBlock checkupInterval hostsBackup hostsFile stateFile trace
       now platform dataDirOk hostsWritable stateWritable firewallOk dnsOk
       withFailures hostsContent boot emits
       fst snd negb andb orb].

Ltac step :=
  match goal with
  | H : Hosts.containsBlock ?c = _ |- context [Hosts.containsBlock ?c] =>
      rewrite H
  | H : ?b = _ |- context [if ?b then _ else _] => rewrite H
  | |- context [if ?b then _ else _] => destruct b eqn:?
  | |- context [match ?x with Darwin => _ | _ => _ end] => destruct x eqn:?
  | |- context [match ?x with Some _ => _ | None => _ end] => destruct x eqn:?
  | |- context [match ?x with NoFile => _ | _ => _ end] => destruct x eqn:?
  end.

(** Run the monadic code, case by case on what it inspects. *)
Ltac crunch := run; repeat (step; run).

(** The events in front of [tr] in [l]. *)
Ltac new_events l tr :=
  lazymatch l with
  | tr => constr:(@nil Event)
  | ?x :: ?l' => let r := new_events l' tr in constr:(x :: r)
  end.

Ltac supply_events :=
  lazymatch goal with
  | |- exists evs, ?l = evs ++ ?tr /\ _ =>
      let r := new_events l tr in exists r; split; [reflexivity|]
  end.

(** C1: when the daemon starts ([currentBlock] is still [null]),
    [loadState] never throws; a saved block whose [endTime] is at or before
    the clock is not restored, by [loadState] or by [main]; a block that is
    restored is the saved one and its [endTime] is strictly after the clock;
    and such a block is restored when the data directory is there. *)
Theorem loadState_restores_only_unexpired (env : Env) (w : World) :
  currentBlock w = None ->
  fst (loadState env w) = Ret tt /\
  (forall b, stateFile w = Document (Some b) ->
             (endTime b <= now env)%Z ->
             currentBlock (snd (loadState env w)) = None /\
             currentBlock (snd (main env w)) = None) /\
  (forall b, currentBlock (snd (loadState env w)) = Some b ->
             stateFile w = Document (Some b) /\ (now env < endTime b)%Z) /\
  (forall b, stateFile w = Document (Some b) ->
             (now env < endTime b)%Z -> dataDirOk env = true ->
             currentBlock (snd (loadState env w)) = Some b).
Proof.
  destruct env as [nw pf dd hw sw fw dn], w as [cb ci hb hf sf tr].
  simpl. intros ->. split; [|split; [|split]].
  - crunch; reflexivity.
  - intros b -> Hle. assert (E : (endTime b >? nw)%Z = false) by lia.
    split; crunch; reflexivity.
  - intros b. crunch; try congruence.
    all: intros [= <-]; split; [reflexivity | lia].
  - intros b -> Hlt ->. assert (E : (endTime b >? nw)%Z = true) by lia.
    crunch; reflexivity.
Qed.

Lemma loadState_restores_only_unexpired_witness :
  currentBlock (boot None (Document (Some block_sample))) = None /\
  currentBlock
    (snd (loadState (env_ok 5000) (boot None (Document (Some block_sample)))))
  = None.
Proof.
  split; [reflexivity|].
  refine (proj1 (proj1 (proj2 (loadState_restores_only_unexpired
            (env_ok 5000) (boot None (Document (Some block_sample)))
            eq_refl)) block_sample eq_refl _)).
  simpl. lia.
Defined.

(** C2, counterexample without the condition on the write: when the hosts
    file cannot be written the tick leaves it as it found it. *)
Lemma tick_cannot_restore_readonly_hosts :
  ~ (forall env w b,
        currentBlock w = Some b -> (now env < endTime b)%Z ->
        Hosts.containsBlock (hostsContent w) = false ->
        Hosts.containsBlock (hostsContent (snd (tick env w))) = true).
Proof.
  intros H.
  specialize (H (env_readonly_hosts 1000) world_tampered block_sample
                eq_refl eq_refl eq_refl).
  vm_compute in H. discriminate.
Qed.

(** C2, with the condition that the write goes through: while the block
    has not expired, a tick that finds no section in the hosts content
    writes the content followed by the section rendered from the domains of
    the current block; the block itself is untouched. *)
Theorem tick_restores_section (env : Env) (w : World) (b : BlockState) :
  currentBlock w = Some b -> (now env < endTime b)%Z ->
  Hosts.containsBlock (hostsContent w) = false ->
  hostsWritable env = true ->
  hostsFile (snd (tick env w))
    = Some (Hosts.addBlockToHosts (hostsContent w) (domains b))
  /\ Hosts.containsBlock (hostsContent (snd (tick env w))) = true
  /\ hostsContent (snd (tick env w))
     = JS.join Hosts.LF
         (JS.trimEnd (hostsContent w)
            :: [ JS.lit ""; Hosts.BLOCK_MARKER_START; HostsSpec.MANAGED ]
            ++ flat_map HostsSpec.redirectLines (domains b)
            ++ [ Hosts.BLOCK_MARKER_END; JS.lit "" ])
  /\ currentBlock (snd (tick env w)) = Some b.
Proof.
  intros Hb Hlt Hc Hw.
  assert (E : (now env >=? endTime b)%Z = false) by lia.
  assert (F : hostsFile (snd (tick env w))
              = Some (Hosts.addBlockToHosts (hostsContent w) (domains b))
              /\ currentBlock (snd (tick env w)) = Some b).
  { destruct env as [nw pf dd hw sw fw dn], w as [cb ci hb hf sf tr].
    cbv [currentBlock hostsWritable now hostsContent hostsFile] in *.
    subst cb hw.
    destruct hf as [content|]; crunch; split; reflexivity. }
  destruct F as [F1 F2].
  assert (G : hostsContent (snd (tick env w))
              = Hosts.addBlockToHosts (hostsContent w) (domains b)).
  { unfold hostsContent at 1. now rewrite F1. }
  repeat split; auto.
  - rewrite G. apply HostsFacts.addBlockToHosts_containsBlock.
  - rewrite G, HostsFacts.addBlockToHosts_join, HostsFacts.blockLines_shape.
    now rewrite HostsFacts.removeBlockFromHosts_no_start.
Qed.

Lemma tick_restores_section_witness :
  hostsFile (snd (tick (env_ok 1000) world_tampered))
  = Some (Hosts.addBlockToHosts (hostsContent world_tampered)
            (domains block_sample)).
Proof.
  refine (proj1 (tick_restores_section (env_ok 1000) world_tampered
                   block_sample eq_refl _ _ eq_refl)).
  - reflexivity.
  - reflexivity.
Defined.

(** C3, counterexample: [startBlock] accepts an [endTime] that has passed,
    sets it and saves it. *)
Lemma startBlock_accepts_expired_endTime :
  ~ (forall env w ds e id,
        fst (startBlock env ds e id w) = Ret (Success None) ->
        forall b,
          currentBlock (snd (startBlock env ds e id w)) = Some b \/
          stateFile (snd (startBlock env ds e id w)) = Document (Some b) ->
          (now env < endTime b)%Z).
Proof.
  intros H.
  specialize (H (env_ok 5000) (boot (Some HostsSpec.hosts_sample) NoFile)
                HostsSpec.domains_sample 1000%Z (JS.lit "a") eq_refl
                (mkBlock HostsSpec.domains_sample 1000 (JS.lit "a"))
                (or_intror eq_refl)).
  simpl in H. lia.
Qed.

(** C3, without the bound on [endTime]: when [startBlock] returns success,
    the block it has set has the [endTime] of the command, whatever the
    clock says, and that same block is what goes into the state file when
    the file can be written (otherwise the file stays). *)
Theorem startBlock_keeps_endTime (env : Env) (w : World)
        (ds : list JS.str) (e : Z) (id : JS.str) :
  fst (startBlock env ds e id w) = Ret (Success None) ->
  currentBlock (snd (startBlock env ds e id w)) = Some (mkBlock ds e id)
  /\ stateFile (snd (startBlock env ds e id w))
     = if dataDirOk env && stateWritable env
       then Document (Some (mkBlock ds e id))
       else stateFile w.
Proof.
  destruct env as [nw pf dd hw sw fw dn], w as [cb ci hb hf sf tr].
  crunch; simpl; intros; try discriminate; split; reflexivity.
Qed.

Lemma startBlock_keeps_endTime_witness :
  fst (startBlock (env_ok 5000) HostsSpec.domains_sample 9000 (JS.lit "a")
         (boot (Some HostsSpec.hosts_sample) NoFile))
  = Ret (Success None) /\
  currentBlock
    (snd (startBlock (env_ok 5000) HostsSpec.domains_sample 9000 (JS.lit "a")
            (boot (Some HostsSpec.hosts_sample) NoFile)))
  = Some (mkBlock HostsSpec.domains_sample 9000 (JS.lit "a")).
Proof.
  split; [reflexivity|].
  exact (proj1 (startBlock_keeps_endTime (env_ok 5000)
                  (boot (Some HostsSpec.hosts_sample) NoFile)
                  HostsSpec.domains_sample 9000 (JS.lit "a") eq_refl)).
Defined.

Ltac absurd_events :=
  unfold hostsWriteFailed; simpl; intros [? ?];
  repeat match goal with
         | H : _ \/ _ |- _ => destruct H
         | H : False |- _ => destruct H
         end; discriminate.

Ltac no_failure :=
  split; [unfold isFailure; intros [? ?]; discriminate | absurd_events].

Ltac is_failure :=
  unfold isFailure, hostsWriteFailed; simpl;
  split; intros _; eexists; [left; reflexivity | reflexivity].

(** Settle one outcome of a command: failed, with a failed write in the
    trace and the state untouched, or not failed, with no failed write. *)
Ltac settle :=
  supply_events;
  split; [first [is_failure | no_failure]|];
  first [intros _; split; reflexivity | absurd_events].

(** What [startBlock] and [clearBlock] return, when they return: it is
    [{success: false, error}] exactly when a write of the hosts file failed
    during the call; what the firewall commands and the DNS flush do has no
    bearing on it; and after a failed hosts write [currentBlock] and the
    state file are as before.  [handleCommand] hands the two commands to
    these functions. *)
Lemma startBlock_clearBlock_result (env : Env) (w : World)
        (ds : list JS.str) (e : Z) (id : JS.str) :
  (exists evs,
      emits (startBlock env ds e id) w evs /\
      (isFailure (fst (startBlock env ds e id w)) <-> hostsWriteFailed evs) /\
      (hostsWriteFailed evs ->
       currentBlock (snd (startBlock env ds e id w)) = currentBlock w /\
       stateFile (snd (startBlock env ds e id w)) = stateFile w))
  /\
  (exists evs,
      emits (clearBlock env) w evs /\
      (isFailure (fst (clearBlock env w)) <-> hostsWriteFailed evs) /\
      (hostsWriteFailed evs ->
       currentBlock (snd (clearBlock env w)) = currentBlock w /\
       stateFile (snd (clearBlock env w)) = stateFile w))
  /\
  (forall fw dns,
      fst (startBlock (withFailures env fw dns) ds e id w)
      = fst (startBlock env ds e id w) /\
      fst (clearBlock (withFailures env fw dns) w)
      = fst (clearBlock env w))
  /\
  (handleCommand env (StartBlockCmd ds e id) w = startBlock env ds e id w /\
   handleCommand env ClearBlockCmd w = clearBlock env w).
Proof.
  split; [|split; [|split]]; [| | |split; reflexivity];
    destruct env as [nw pf dd hw sw fw dn], w as [cb ci hb hf sf tr].
  - crunch; try congruence; settle.
  - crunch; try congruence; settle.
  - intros fw' dn'. split; crunch; reflexivity.
Qed.

(** C9: [getStatus] answers from [currentBlock] and the clock alone and
    leaves everything as it was, the trace included: no read, no write.
    With no block it answers [{active: false}], as it does on a daemon that
    has just started and found no saved block. *)
Theorem getStatus_read_only (env : Env) (w : World) :
  getStatus env w
  = (Ret match currentBlock w with
         | None => Inactive
         | Some b => Active (domains b) (endTime b) (blocklistId b)
                            (Z.max 0 (endTime b - now env))
         end, w)
  /\ handleCommand env GetStatusCmd w = getStatus env w
  /\ (forall env0 hosts,
        fst (getStatus env (snd (main env0 (boot hosts NoFile))))
        = Ret Inactive
        /\ fst (getStatus env (snd (main env0 (boot hosts Unparsable))))
           = Ret Inactive
        /\ fst (getStatus env (snd (main env0 (boot hosts (Document None)))))
           = Ret Inactive).
Proof.
  split; [|split].
  - unfold getStatus, bind, get, ret. destruct (currentBlock w); reflexivity.
  - reflexivity.
  - intros [nw pf dd hw sw fw dn] hosts. repeat split; crunch; reflexivity.
Qed.

(** C10, counterexample: with a block set whose [endTime] has passed, a
    tick does not leave a hosts file with the start marker as it is: it
    takes the expiry branch and removes the section. *)
Lemma tick_after_endTime_removes_section :
  ~ (forall env w b content,
        currentBlock w = Some b -> hostsFile w = Some content ->
        Hosts.containsBlock content = true ->
        hostsFile (snd (tick env w)) = Some content).
Proof.
  intros H.
  specialize (H (env_ok 6000) world_enforcing block_sample
                (Hosts.addBlockToHosts HostsSpec.hosts_sample
                   HostsSpec.domains_sample)
                eq_refl eq_refl eq_refl).
  vm_compute in H. discriminate.
Qed.

(** C10, for a tick before [endTime]: [containsBlock] holds exactly when
    the start marker occurs in the content.  So with a block set and the
    start marker in the hosts file, the integrity check reads the file and
    does nothing else, and so does a tick while [endTime] has not passed,
    whatever the rest of the section looks like. *)
Theorem integrity_check_looks_at_start_marker_only :
  (forall content,
      Hosts.containsBlock content = true <->
      exists a b, content = a ++ Hosts.BLOCK_MARKER_START ++ b)
  /\
  (forall env w b content,
      currentBlock w = Some b -> hostsFile w = Some content ->
      Hosts.containsBlock content = true ->
      (emits (checkBlockIntegrity env) w [HostsRead] /\
       hostsFile (snd (checkBlockIntegrity env w)) = Some content /\
       currentBlock (snd (checkBlockIntegrity env w)) = Some b)
      /\
      ((now env < endTime b)%Z ->
       emits (tick env) w [HostsRead] /\
       hostsFile (snd (tick env w)) = Some content /\
       currentBlock (snd (tick env w)) = Some b)).
Proof.
  split.
  - intros content. apply JSFacts.includes_occurs.
  - intros [nw pf dd hw sw fw dn] [cb ci hb hf sf tr] b content.
    cbv [currentBlock hostsFile now]. intros -> -> Hc. split.
    + crunch; repeat split; reflexivity.
    + intros Hlt. assert (E : (nw >=? endTime b)%Z = false) by lia.
      crunch; repeat split; reflexivity.
Qed.

Lemma integrity_check_looks_at_start_marker_only_witness :
  currentBlock world_enforcing = Some block_sample /\
  hostsFile (snd (tick (env_ok 1000) world_enforcing))
  = hostsFile world_enforcing.
Proof.
  split; [reflexivity|].
  refine (proj1 (proj2 (proj2 (proj2 integrity_check_looks_at_start_marker_only
            (env_ok 1000) world_enforcing block_sample _ eq_refl eq_refl _) _))).
  - vm_compute. reflexivity.
  - simpl. lia.
Defined.

End DaemonFacts.
(* ================================================================== *)
(** ** The hosts rule editor: one section, replaced as a whole *)
(* ================================================================== *)

Module HostsMore.

Import Hosts HostsSpec HostsFacts.

(** A pattern whose first character occurs nowhere else in it cannot begin
    inside [s] and run into a copy of itself. *)
Lemma startsWith_own_head (x : ascii) (p' s c : JS.str) :
  ~ In x p' -> s <> [] ->
  JS.startsWith (s ++ (x :: p') ++ c) (x :: p') = true ->
  JS.startsWith s (x :: p') = true.
Proof.
  intros Hx Hs H. destruct s as [|y s]; [congruence|].
  simpl in H |- *. apply andb_true_iff in H as [Hxy H]. rewrite Hxy. simpl.
  now apply JSFacts.startsWith_sep with (x := x) (t := p' ++ c).
Qed.

Lemma find_own_head_Some (x : ascii) (p' a c : JS.str) :
  ~ In x p' -> JS.find a (x :: p') = None ->
  JS.find (a ++ (x :: p') ++ c) (x :: p') = Some (List.length a).
Proof.
  intros Hx. induction a as [|y a IH]; intros Ha.
  - exact (JSFacts.find_here (x :: p') c).
  - apply JSFacts.find_cons_None in Ha as [H1 H2].
    rewrite <- app_comm_cons, JSFacts.find_cons.
    destruct (JS.startsWith (y :: a ++ (x :: p') ++ c) (x :: p')) eqn:E.
    + apply (startsWith_own_head x p' (y :: a) c Hx) in E;
        [congruence | discriminate].
    + rewrite (IH H2). reflexivity.
Qed.

Lemma find_own_head_None (x : ascii) (p' a b : JS.str) :
  ~ In x p' -> JS.find a (x :: p') = None ->
  JS.find (x :: b) (x :: p') = None ->
  JS.find (a ++ x :: b) (x :: p') = None.
Proof.
  intros Hx Ha Hb. induction a as [|y a IH]; [exact Hb|].
  apply JSFacts.find_cons_None in Ha as [H1 H2].
  rewrite <- app_comm_cons. apply JSFacts.find_cons_None.
  split; [|now apply IH].
  destruct (JS.startsWith (y :: a ++ x :: b) (x :: p')) eqn:E; [|reflexivity].
  simpl in E, H1. apply andb_true_iff in E as [Hxy E].
  rewrite Hxy in H1. simpl in H1.
  apply JSFacts.startsWith_sep in E; [congruence | exact Hx].
Qed.

Lemma find_skip_headless (x : ascii) (p' s b : JS.str) :
  ~ In x s -> JS.find b (x :: p') = None ->
  JS.find (s ++ b) (x :: p') = None.
Proof.
  intros Hs Hb. induction s as [|y s IH]; [exact Hb|].
  rewrite <- app_comm_cons. apply JSFacts.find_cons_None. split.
  - simpl. destruct (Ascii.eqb_spec x y) as [->|_]; [|reflexivity].
    exfalso; apply Hs; now left.
  - apply IH. intros H; apply Hs; now right.
Qed.

(** The two searches of [removeBlockFromHosts] on a text with one
    section. *)
Lemma find_section (before body after : JS.str) :
  markerFree before -> JS.includes body BLOCK_MARKER_END = false ->
  let content :=
    before ++ BLOCK_MARKER_START ++ body ++ BLOCK_MARKER_END ++ after in
  JS.find content BLOCK_MARKER_START = Some (List.length before) /\
  JS.find content BLOCK_MARKER_END
  = Some (List.length (before ++ BLOCK_MARKER_START ++ body)).
Proof.
  intros Hb Hbody content.
  apply markerFree_find in Hb as [Hbs Hbe].
  apply includes_false_find in Hbody.
  split.
  - unfold content. apply find_own_head_Some; [|exact Hbs].
    simpl. intuition discriminate.
  - unfold content.
    replace (before ++ BLOCK_MARKER_START ++ body ++ BLOCK_MARKER_END ++ after)
      with ((before ++ BLOCK_MARKER_START ++ body) ++ BLOCK_MARKER_END ++ after)
      by (now rewrite <- !app_assoc).
    apply find_own_head_Some; [simpl; intuition discriminate|].
    apply find_own_head_None; [simpl; intuition discriminate | exact Hbe |].
    apply JSFacts.find_cons_None. split; [reflexivity|].
    apply (find_skip_headless "#"%char _ (JS.lit " BEGIN REDD BLOCK") body);
      [simpl; intuition discriminate | exact Hbody].
Qed.

Lemma remove_section (before body after : JS.str) :
  markerFree before -> JS.includes body BLOCK_MARKER_END = false ->
  removeBlockFromHosts
    (before ++ BLOCK_MARKER_START ++ body ++ BLOCK_MARKER_END ++ after)
  = JS.trimEnd before
      ++ (if JS.truthy (JS.trimStart after)
          then LF ++ JS.trimStart after else []).
Proof.
  intros Hb Hbody.
  destruct (find_section before body after Hb Hbody) as [FS FE].
  unfold removeBlockFromHosts, JS.indexOf. rewrite FS, FE.
  destruct (Z.of_nat (List.length before) =? -1)%Z eqn:E;
    [apply Z.eqb_eq in E; lia|].
  destruct (Z.of_nat (List.length (before ++ BLOCK_MARKER_START ++ body))
            =? -1)%Z eqn:E'; [apply Z.eqb_eq in E'; lia|].
  cbv [negb]. rewrite JSFacts.substring_prefix.
  replace (Z.of_nat (List.length (before ++ BLOCK_MARKER_START ++ body))
           + JS.length BLOCK_MARKER_END)%Z
    with (Z.of_nat (List.length
            ((before ++ BLOCK_MARKER_START ++ body) ++ BLOCK_MARKER_END)))
    by (unfold JS.length; rewrite (length_app (_ ++ _)); lia).
  replace (before ++ BLOCK_MARKER_START ++ body ++ BLOCK_MARKER_END ++ after)
    with (((before ++ BLOCK_MARKER_START ++ body) ++ BLOCK_MARKER_END) ++ after)
    by (now rewrite <- !app_assoc).
  rewrite JSFacts.substringFrom_suffix. reflexivity.
Qed.

Lemma find_None_app_r (a b p : JS.str) :
  JS.find (a ++ b) p = None -> JS.find b p = None.
Proof.
  induction a as [|c a IH]; [trivial|].
  rewrite <- app_comm_cons. intros H.
  apply JSFacts.find_cons_None in H as [_ H]. now apply IH.
Qed.

Lemma markerFree_suffix (a b : JS.str) : markerFree (a ++ b) -> markerFree b.
Proof.
  rewrite !markerFree_find. intros [H1 H2].
  split; eapply find_None_app_r; eassumption.
Qed.

Lemma markerFree_trimStart (s : JS.str) :
  markerFree s -> markerFree (JS.trimStart s).
Proof.
  destruct (JSFacts.trimStart_split s) as (ws & _ & E). intros H.
  rewrite E in H. now apply markerFree_suffix in H.
Qed.

Lemma markerFree_lines (a b : JS.str) :
  markerFree a -> markerFree b -> markerFree (a ++ LF ++ b).
Proof.
  rewrite !markerFree_find. intros [A1 A2] [B1 B2].
  split; apply JSFacts.find_sep_None; auto; simpl; intuition discriminate.
Qed.

(** X1: on a text with one section (nothing of the markers in front of
    it, no end marker inside it) [removeBlockFromHosts] keeps the text in
    front of the start marker without its trailing white space and the
    text behind the end marker without its leading white space, with one
    line feed between them when something is left behind the section. *)
Theorem removeBlockFromHosts_one_section (before body after : JS.str) :
  markerFree before -> JS.includes body BLOCK_MARKER_END = false ->
  removeBlockFromHosts
    (before ++ BLOCK_MARKER_START ++ body ++ BLOCK_MARKER_END ++ after)
  = JS.trimEnd before
      ++ (if JS.truthy (JS.trimStart after)
          then LF ++ JS.trimStart after else []).
Proof.
  intros Hb Hbody.
  destruct (find_section before body after Hb Hbody) as [FS FE].
  unfold removeBlockFromHosts, JS.indexOf. rewrite FS, FE.
  destruct (Z.of_nat (List.length before) =? -1)%Z eqn:E;
    [apply Z.eqb_eq in E; lia|].
  destruct (Z.of_nat (List.length (before ++ BLOCK_MARKER_START ++ body))
            =? -1)%Z eqn:E'; [apply Z.eqb_eq in E'; lia|].
  cbv [negb]. rewrite JSFacts.substring_prefix.
  replace (Z.of_nat (List.length (before ++ BLOCK_MARKER_START ++ body))
           + JS.length BLOCK_MARKER_END)%Z
    with (Z.of_nat (List.length
            ((before ++ BLOCK_MARKER_START ++ body) ++ BLOCK_MARKER_END)))
    by (unfold JS.length; rewrite (length_app (_ ++ _)); lia).
  replace (before ++ BLOCK_MARKER_START ++ body ++ BLOCK_MARKER_END ++ after)
    with (((before ++ BLOCK_MARKER_START ++ body) ++ BLOCK_MARKER_END) ++ after)
    by (now rewrite <- !app_assoc).
  rewrite JSFacts.substringFrom_suffix. reflexivity.
Qed.

Lemma removeBlockFromHosts_one_section_witness :
  markerFree hosts_sample /\
  removeBlockFromHosts
    (hosts_sample ++ BLOCK_MARKER_START ++ HostsMoreSpec.body_sample
       ++ BLOCK_MARKER_END ++ HostsMoreSpec.after_sample)
  = JS.trimEnd hosts_sample ++ LF ++ JS.lit "10.0.0.1 nas" ++ LF.
Proof.
  assert (H : markerFree hosts_sample) by (split; reflexivity).
  split; [exact H|].
  exact (removeBlockFromHosts_one_section hosts_sample
           HostsMoreSpec.body_sample HostsMoreSpec.after_sample H eq_refl).
Defined.

(** X4: after the removal of the one section of such a text, with no
    marker behind the section either, no marker is left: [containsBlock]
    is false on the result. *)
Theorem removeBlockFromHosts_leaves_no_marker (before body after : JS.str) :
  markerFree before -> JS.includes body BLOCK_MARKER_END = false ->
  markerFree after ->
  markerFree
    (removeBlockFromHosts
       (before ++ BLOCK_MARKER_START ++ body ++ BLOCK_MARKER_END ++ after))
  /\ containsBlock
       (removeBlockFromHosts
          (before ++ BLOCK_MARKER_START ++ body ++ BLOCK_MARKER_END ++ after))
     = false.
Proof.
  intros Hb Hbody Ha.
  assert (M : markerFree
                (removeBlockFromHosts
                   (before ++ BLOCK_MARKER_START ++ body
                      ++ BLOCK_MARKER_END ++ after))).
  { rewrite remove_section by assumption.
    destruct (JS.truthy (JS.trimStart after)).
    - apply markerFree_lines;
        [now apply markerFree_trimEnd | now apply markerFree_trimStart].
    - rewrite app_nil_r. now apply markerFree_trimEnd. }
  split; [exact M | apply M].
Qed.

Lemma removeBlockFromHosts_leaves_no_marker_witness :
  markerFree hosts_sample /\ markerFree HostsMoreSpec.after_sample /\
  containsBlock
    (removeBlockFromHosts
       (hosts_sample ++ BLOCK_MARKER_START ++ HostsMoreSpec.body_sample
          ++ BLOCK_MARKER_END ++ HostsMoreSpec.after_sample))
  = false.
Proof.
  assert (H : markerFree hosts_sample) by (split; reflexivity).
  assert (H' : markerFree HostsMoreSpec.after_sample) by (split; reflexivity).
  split; [exact H|]. split; [exact H'|].
  exact (proj2 (removeBlockFromHosts_leaves_no_marker hosts_sample
                  HostsMoreSpec.body_sample HostsMoreSpec.after_sample
                  H eq_refl H')).
Defined.

(** X3: in a content with no marker in front of its section, what stands
    between the markers has no influence on what [addBlockToHosts] returns,
    as long as it holds no end marker: the old section is dropped as a
    whole, whatever was done to its lines. *)
Theorem addBlockToHosts_replaces_section
        (before body body' after : JS.str) (domains : list JS.str) :
  markerFree before ->
  JS.includes body BLOCK_MARKER_END = false ->
  JS.includes body' BLOCK_MARKER_END = false ->
  addBlockToHosts
    (before ++ BLOCK_MARKER_START ++ body ++ BLOCK_MARKER_END ++ after) domains
  = addBlockToHosts
      (before ++ BLOCK_MARKER_START ++ body' ++ BLOCK_MARKER_END ++ after)
      domains.
Proof.
  intros Hb H1 H2. unfold addBlockToHosts.
  now rewrite !remove_section.
Qed.

Lemma addBlockToHosts_replaces_section_witness :
  markerFree hosts_sample /\
  addBlockToHosts
    (hosts_sample ++ BLOCK_MARKER_START ++ HostsMoreSpec.body_sample
       ++ BLOCK_MARKER_END ++ HostsMoreSpec.after_sample) domains_sample
  = addBlockToHosts
      (hosts_sample ++ BLOCK_MARKER_START ++ HostsMoreSpec.body_sample'
         ++ BLOCK_MARKER_END ++ HostsMoreSpec.after_sample) domains_sample.
Proof.
  assert (H : markerFree hosts_sample) by (split; reflexivity).
  split; [exact H|].
  exact (addBlockToHosts_replaces_section hosts_sample
           HostsMoreSpec.body_sample HostsMoreSpec.body_sample'
           HostsMoreSpec.after_sample domains_sample H eq_refl eq_refl).
Defined.

Lemma add_add (content : JS.str) (first second : list JS.str) :
  markerFree (removeBlockFromHosts content) ->
  addBlockToHosts (addBlockToHosts content first) second
  = addBlockToHosts content second.
Proof.
  intros H. rewrite (addBlockToHosts_join (addBlockToHosts content first)).
  rewrite remove_add by exact H. rewrite JSFacts.trimEnd_idem.
  symmetry. apply addBlockToHosts_join.
Qed.

(** X2: inserting a second list after a first gives what inserting the
    second list alone gives (the lists are not merged), for content from
    which removal leaves no marker behind. *)
Theorem addBlockToHosts_last_list_wins (content : JS.str)
        (first second : list JS.str) :
  markerFree (removeBlockFromHosts content) ->
  addBlockToHosts (addBlockToHosts content first) second
  = addBlockToHosts content second.
Proof.
  intros H. rewrite (addBlockToHosts_join (addBlockToHosts content first)).
  rewrite remove_add by exact H. rewrite JSFacts.trimEnd_idem.
  symmetry. apply addBlockToHosts_join.
Qed.

Lemma addBlockToHosts_last_list_wins_witness :
  markerFree (removeBlockFromHosts hosts_sample) /\
  addBlockToHosts (addBlockToHosts hosts_sample [JS.lit "x.com"])
                  domains_sample
  = addBlockToHosts hosts_sample domains_sample.
Proof.
  assert (H : markerFree (removeBlockFromHosts hosts_sample))
    by (split; reflexivity).
  split; [exact H|].
  exact (addBlockToHosts_last_list_wins hosts_sample [JS.lit "x.com"]
           domains_sample H).
Defined.

End HostsMore.

(* ================================================================== *)
(** ** The daemon: life cycle of a block *)
(* ================================================================== *)

Module LifeCycle.

Import Daemon DaemonSpec LifeCycleSpec DaemonFacts.

Ltac run' := cbv [timerOk restart] in *; run.
Ltac crunch' := run'; repeat (step; run').

(** X5: a block that is set is watched.  After [main], and after every
    command and every tick from a state where this holds, a non-null
    [currentBlock] comes with a running checkup timer. *)
Theorem timer_runs_while_block_is_set (env : Env) (w : World) :
  (forall hosts file, timerOk (snd (main env (boot hosts file))) = true)
  /\
  (timerOk w = true ->
   (forall command, timerOk (snd (handleCommand env command w)) = true) /\
   timerOk (snd (tick env w)) = true).
Proof.
  destruct env as [nw pf dd hw sw fw dn], w as [cb ci hb hf sf tr].
  split.
  - intros hosts file. crunch'; try reflexivity; congruence.
  - intros H. split.
    + intros [ds e id| | | |action]; revert H; crunch';
        intros; try reflexivity; try assumption; try congruence;
        destruct ci; simpl in *; congruence.
    + revert H; crunch'; intros; try reflexivity; try assumption;
        try congruence; destruct ci; simpl in *; congruence.
Qed.

Lemma timer_runs_while_block_is_set_witness :
  timerOk world_enforcing = true /\
  timerOk (snd (handleCommand (env_ok 1000) ClearBlockCmd world_enforcing))
  = true.
Proof.
  split; [reflexivity|].
  exact (proj1 (proj2 (timer_runs_while_block_is_set (env_ok 1000)
                         world_enforcing) eq_refl) ClearBlockCmd).
Defined.

(** The variables and the files after a [startBlock] that succeeded. *)
Lemma startBlock_success_state (env : Env) (w : World)
      (ds : list JS.str) (e : Z) (id : JS.str) :
  fst (startBlock env ds e id w) = Ret (Success None) ->
  let w1 := snd (startBlock env ds e id w) in
  currentBlock w1 = Some (mkBlock ds e id) /\
  checkupInterval w1 = true /\
  hostsBackup w1 = Some (hostsContent w) /\
  hostsFile w1 = Some (Hosts.addBlockToHosts (hostsContent w) ds) /\
  stateFile w1 = (if dataDirOk env && stateWritable env
                  then Document (Some (mkBlock ds e id))
                  else stateFile w).
Proof.
  destruct env as [nw pf dd hw sw fw dn], w as [cb ci hb hf sf tr].
  crunch'; simpl; intros; try discriminate;
    try (destruct ci; try discriminate); repeat split; reflexivity.
Qed.

(** X6: a block survives the restart of the daemon.  When [startBlock]
    succeeded and the state file was written, a new process that runs
    [main] before [endTime] has the same block again, with the timer
    running and the hosts file untouched, and reports it as active. *)
Theorem block_survives_restart (env env' : Env) (w : World)
        (ds : list JS.str) (e : Z) (id : JS.str) :
  fst (startBlock env ds e id w) = Ret (Success None) ->
  dataDirOk env = true -> stateWritable env = true ->
  dataDirOk env' = true -> (now env' < e)%Z ->
  let w1 := snd (startBlock env ds e id w) in
  let w2 := snd (main env' (restart w1)) in
  currentBlock w2 = Some (mkBlock ds e id) /\
  checkupInterval w2 = true /\
  hostsFile w2 = hostsFile w1 /\
  fst (getStatus env' w2) = Ret (Active ds e id (e - now env')).
Proof.
  intros Hok Hd Hs Hd' Hlt w1 w2.
  destruct (startBlock_success_state env w ds e id Hok)
    as (_ & _ & _ & Hh & Hf).
  fold w1 in Hh, Hf. rewrite Hd, Hs in Hf. simpl in Hf.
  unfold w2, restart. rewrite Hh, Hf. clear Hok Hh Hf Hd Hs.
  destruct env' as [nw' pf' dd' hw' sw' fw' dn'].
  cbv [dataDirOk now] in *. subst dd'.
  assert (E : (e >? nw')%Z = true) by lia.
  assert (M : Z.max 0 (e - nw') = (e - nw')%Z) by lia.
  run'. cbv [endTime domains blocklistId]. rewrite E.
  destruct (validTime e); run'; cbv [endTime domains blocklistId];
    rewrite M; repeat split; reflexivity.
Qed.

Lemma block_survives_restart_witness :
  fst (startBlock (env_ok 1000) HostsSpec.domains_sample 5000 (JS.lit "a")
         world_fresh) = Ret (Success None) /\
  currentBlock
    (snd (main (env_ok 2000)
            (restart (snd (startBlock (env_ok 1000) HostsSpec.domains_sample
                             5000 (JS.lit "a") world_fresh)))))
  = Some (mkBlock HostsSpec.domains_sample 5000 (JS.lit "a")).
Proof.
  split; [reflexivity|].
  refine (proj1 (block_survives_restart (env_ok 1000) (env_ok 2000)
                   world_fresh HostsSpec.domains_sample 5000 (JS.lit "a")
                   eq_refl eq_refl eq_refl eq_refl _)).
  reflexivity.
Defined.

(** The variables and the files after a [clearBlock] that had a block to
    clear and could write the hosts file. *)
Lemma clearBlock_success_state (env : Env) (w : World) (b : BlockState) :
  currentBlock w = Some b -> hostsWritable env = true ->
  let w1 := snd (clearBlock env w) in
  fst (clearBlock env w) = Ret (Success None) /\
  currentBlock w1 = None /\
  checkupInterval w1 = checkupInterval w /\
  hostsFile w1 = Some (Hosts.removeBlockFromHosts (hostsContent w)) /\
  stateFile w1 = (if dataDirOk env && stateWritable env
                  then Document None else stateFile w).
Proof.
  destruct env as [nw pf dd hw sw fw dn], w as [cb ci hb hf sf tr].
  cbv [currentBlock hostsWritable]. intros -> ->.
  crunch'; simpl; repeat split; reflexivity.
Qed.



(** X8: the tick at or after [endTime].  When the hosts file can be
    written the block is cleared: [currentBlock] is null, the hosts file
    is what [removeBlockFromHosts] makes of it, the state file holds null
    when it can be written, [getStatus] is inactive, and the tick after
    that stops the timer and changes nothing else.  When the hosts file
    cannot be written the block stays set and [getStatus] reports it
    active with no time remaining. *)
Theorem tick_clears_expired_block (env : Env) (w : World) (b : BlockState) :
  currentBlock w = Some b -> (endTime b <= now env)%Z ->
  (hostsWritable env = true ->
   let w1 := snd (tick env w) in
   currentBlock w1 = None /\
   hostsFile w1 = Some (Hosts.removeBlockFromHosts (hostsContent w)) /\
   stateFile w1 = (if dataDirOk env && stateWritable env
                   then Document None else stateFile w) /\
   fst (getStatus env w1) = Ret Inactive /\
   (forall env2,
       checkupInterval (snd (tick env2 w1)) = false /\
       currentBlock (snd (tick env2 w1)) = None /\
       hostsFile (snd (tick env2 w1)) = hostsFile w1 /\
       stateFile (snd (tick env2 w1)) = stateFile w1))
  /\
  (hostsWritable env = false ->
   let w1 := snd (tick env w) in
   currentBlock w1 = Some b /\
   hostsFile w1 = hostsFile w /\
   stateFile w1 = stateFile w /\
   fst (getStatus env w1)
   = Ret (Active (domains b) (endTime b) (blocklistId b) 0)).
Proof.
  intros Hb Hle.
  assert (E : (now env >=? endTime b)%Z = true) by lia.
  assert (M : Z.max 0 (endTime b - now env) = 0%Z) by lia.
  destruct env as [nw pf dd hw sw fw dn], w as [cb ci hb hf sf tr].
  cbv [currentBlock hostsWritable now] in *. subst cb.
  split; intros ->; destruct hf, pf, dd, sw, fw, dn, ci;
    repeat split; try (intros [nw2 pf2 dd2 hw2 sw2 fw2 dn2]);
    run'; rewrite E; run'; try rewrite M; reflexivity.
Qed.

Lemma tick_clears_expired_block_witness :
  currentBlock world_enforcing = Some block_sample /\
  currentBlock (snd (tick (env_ok 6000) world_enforcing)) = None.
Proof.
  split; [reflexivity|].
  refine (proj1 (proj1 (tick_clears_expired_block (env_ok 6000)
                          world_enforcing block_sample eq_refl _)
                   eq_refl)).
  simpl. lia.
Defined.

(** X9: [startBlock] followed by [clearBlock] gives the hosts file back:
    when removal leaves no marker in the content [startBlock] found, the
    file afterwards is that content without its section and without its
    trailing white space, and [containsBlock] is false on it. *)
Theorem start_then_clear_gives_hosts_back (env env' : Env) (w : World)
        (ds : list JS.str) (e : Z) (id : JS.str) :
  HostsSpec.markerFree (Hosts.removeBlockFromHosts (hostsContent w)) ->
  fst (startBlock env ds e id w) = Ret (Success None) ->
  hostsWritable env' = true ->
  let w1 := snd (startBlock env ds e id w) in
  let w2 := snd (clearBlock env' w1) in
  fst (clearBlock env' w1) = Ret (Success None) /\
  currentBlock w2 = None /\
  hostsFile w2
  = Some (JS.trimEnd (Hosts.removeBlockFromHosts (hostsContent w))) /\
  Hosts.containsBlock (hostsContent w2) = false.
Proof.
  intros Hm Hok Hw' w1 w2.
  destruct (startBlock_success_state env w ds e id Hok)
    as (Hb & _ & _ & Hh & _).
  fold w1 in Hb, Hh.
  destruct (clearBlock_success_state env' w1 _ Hb Hw')
    as (R & C & _ & H & _).
  fold w2 in C, H.
  assert (Hc : hostsContent w1
               = Hosts.addBlockToHosts (hostsContent w) ds)
    by (unfold hostsContent at 1; now rewrite Hh).
  rewrite Hc, HostsFacts.remove_add in H by exact Hm.
  repeat split; auto.
  unfold hostsContent. rewrite H.
  apply (HostsFacts.markerFree_trimEnd _ Hm).
Qed.

Lemma start_then_clear_gives_hosts_back_witness :
  HostsSpec.markerFree
    (Hosts.removeBlockFromHosts (hostsContent world_fresh)) /\
  hostsFile
    (snd (clearBlock (env_ok 2000)
            (snd (startBlock (env_ok 1000) HostsSpec.domains_sample 5000
                    (JS.lit "a") world_fresh))))
  = Some (JS.trimEnd
            (Hosts.removeBlockFromHosts (hostsContent world_fresh))).
Proof.
  assert (H : HostsSpec.markerFree
                (Hosts.removeBlockFromHosts (hostsContent world_fresh)))
    by (split; reflexivity).
  split; [exact H|].
  exact (proj1 (proj2 (proj2 (start_then_clear_gives_hosts_back
           (env_ok 1000) (env_ok 2000) world_fresh HostsSpec.domains_sample
           5000 (JS.lit "a") H eq_refl eq_refl)))).
Defined.

(** X19: when [removeBlockFromHosts] leaves no marker in the content the
    first command finds, a second successful [startBlock] replaces the
    first: the block of the second command is set, and the hosts file is
    what the second command alone would have made of the content the first
    one found. *)
Theorem second_startBlock_replaces_first (env env' : Env) (w : World)
        (ds ds' : list JS.str) (e e' : Z) (id id' : JS.str) :
  HostsSpec.markerFree (Hosts.removeBlockFromHosts (hostsContent w)) ->
  fst (startBlock env ds e id w) = Ret (Success None) ->
  let w1 := snd (startBlock env ds e id w) in
  fst (startBlock env' ds' e' id' w1) = Ret (Success None) ->
  let w2 := snd (startBlock env' ds' e' id' w1) in
  currentBlock w2 = Some (mkBlock ds' e' id') /\
  hostsFile w2 = Some (Hosts.addBlockToHosts (hostsContent w) ds') /\
  checkupInterval w2 = true.
Proof.
  intros Hm Hok w1 Hok' w2.
  destruct (startBlock_success_state env w ds e id Hok)
    as (_ & _ & _ & Hh & _).
  fold w1 in Hh.
  destruct (startBlock_success_state env' w1 ds' e' id' Hok')
    as (Hb' & Ht' & _ & Hh' & _).
  fold w2 in Hb', Ht', Hh'.
  assert (Hc : hostsContent w1 = Hosts.addBlockToHosts (hostsContent w) ds)
    by (unfold hostsContent at 1; now rewrite Hh).
  rewrite Hc, HostsMore.add_add in Hh' by exact Hm.
  auto.
Qed.

Lemma second_startBlock_replaces_first_witness :
  HostsSpec.markerFree
    (Hosts.removeBlockFromHosts (hostsContent world_fresh)) /\
  hostsFile
    (snd (startBlock (env_ok 2000) [JS.lit "x.com"] 9000 (JS.lit "b")
            (snd (startBlock (env_ok 1000) HostsSpec.domains_sample 5000
                    (JS.lit "a") world_fresh))))
  = Some (Hosts.addBlockToHosts (hostsContent world_fresh) [JS.lit "x.com"]).
Proof.
  assert (H : HostsSpec.markerFree
                (Hosts.removeBlockFromHosts (hostsContent world_fresh)))
    by (split; reflexivity).
  split; [exact H|].
  exact (proj1 (proj2 (second_startBlock_replaces_first
           (env_ok 1000) (env_ok 2000) world_fresh HostsSpec.domains_sample
           [JS.lit "x.com"] 5000 9000 (JS.lit "a") (JS.lit "b")
           H eq_refl eq_refl))).
Defined.

End LifeCycle.

(* ================================================================== *)
(** ** The IPC server: framing of requests and answers *)
(* ================================================================== *)

Module ServerFacts.

Import Daemon Server ServerSpec.

Lemma split_nonempty (sep : ascii) (s : JS.str) : JSText.split sep s <> [].
Proof.
  destruct s as [|c r]; simpl; [discriminate|].
  destruct (Ascii.eqb c sep); [discriminate|].
  destruct (JSText.split sep r); discriminate.
Qed.

Lemma pop_cons (x : JS.str) (xs : list JS.str) :
  xs <> [] ->
  JSText.pop (x :: xs)
  = (x :: fst (JSText.pop xs), snd (JSText.pop xs)).
Proof.
  destruct xs as [|y ys]; [congruence|]. intros _.
  change (JSText.pop (x :: y :: ys))
    with (let (rest, last) := JSText.pop (y :: ys) in (x :: rest, last)).
  now destruct (JSText.pop (y :: ys)).
Qed.

Lemma pop_app (xs ys : list JS.str) :
  ys <> [] ->
  JSText.pop (xs ++ ys)
  = (xs ++ fst (JSText.pop ys), snd (JSText.pop ys)).
Proof.
  intros Hy. induction xs as [|x xs IH]; simpl app.
  - now destruct (JSText.pop ys).
  - rewrite pop_cons, IH; [reflexivity|].
    destruct xs; simpl; [exact Hy | discriminate].
Qed.

Lemma pop_last_some (xs : list JS.str) :
  xs <> [] -> exists l, snd (JSText.pop xs) = Some l.
Proof.
  induction xs as [|x xs IH]; [congruence|]. intros _.
  destruct xs as [|y ys]; [now exists x|].
  rewrite pop_cons by discriminate. simpl. apply IH. discriminate.
Qed.

(** Splitting a text that goes on: the lines already closed stay, the open
    one is continued. *)
Lemma split_cons (sep c : ascii) (r : JS.str) :
  JSText.split sep (c :: r)
  = if Ascii.eqb c sep then [] :: JSText.split sep r
    else match JSText.split sep r with
         | l :: ls => (c :: l) :: ls
         | [] => [ [c] ]
         end.
Proof. reflexivity. Qed.

Lemma split_app (sep : ascii) (a b : JS.str) :
  exists la ra,
    JSText.pop (JSText.split sep a) = (la, Some ra) /\
    JSText.split sep (a ++ b) = la ++ JSText.split sep (ra ++ b).
Proof.
  induction a as [|c a (la & ra & Hp & Hs)].
  - exists [], []. split; reflexivity.
  - rewrite <- app_comm_cons, !split_cons.
    destruct (Ascii.eqb c sep) eqn:E.
    + exists ([] :: la), ra. split.
      * rewrite pop_cons by apply split_nonempty. now rewrite Hp.
      * rewrite Hs. reflexivity.
    + destruct (JSText.split sep a) as [|l ls] eqn:Sa;
        [now apply split_nonempty in Sa|].
      destruct ls as [|l' ls].
      * (* no separator in [a] *)
        simpl in Hp. injection Hp as <- <-.
        exists [], (c :: l). split; [reflexivity|].
        simpl app in *. rewrite Hs, E. reflexivity.
      * rewrite pop_cons in Hp by discriminate.
        apply pair_equal_spec in Hp as [Hla Hra].
        exists ((c :: l) :: fst (JSText.pop (l' :: ls))), ra. split.
        -- rewrite pop_cons by discriminate. now rewrite Hra.
        -- rewrite Hs, <- Hla. reflexivity.
Qed.

Lemma split_oneLine (s : JS.str) :
  oneLine s -> JSText.split NL s = [s].
Proof.
  unfold oneLine. induction s as [|c s IH]; intros H; [reflexivity|].
  rewrite split_cons. destruct (Ascii.eqb_spec c NL) as [->|_].
  - exfalso; apply H; now left.
  - rewrite IH; [reflexivity|]. intros Hin; apply H; now right.
Qed.

Lemma split_line_cons (l rest : JS.str) :
  oneLine l -> JSText.split NL (l ++ NL :: rest) = l :: JSText.split NL rest.
Proof.
  unfold oneLine. induction l as [|c l IH]; intros H.
  - simpl app. rewrite split_cons. now rewrite Ascii.eqb_refl.
  - rewrite <- app_comm_cons, split_cons.
    destruct (Ascii.eqb_spec c NL) as [->|_].
    + exfalso; apply H; now left.
    + rewrite IH; [reflexivity|]. intros Hin; apply H; now right.
Qed.

Lemma split_framed (lines : list JS.str) (tail : JS.str) :
  Forall oneLine lines -> oneLine tail ->
  JSText.split NL (framed lines ++ tail) = lines ++ [tail].
Proof.
  intros Hl Ht. induction Hl as [|l ls Hl Hls IH].
  - now apply split_oneLine.
  - unfold framed in *. simpl List.concat. simpl map.
    change Hosts.LF with [NL]. rewrite <- !app_assoc. simpl app at 2.
    rewrite split_line_cons by exact Hl.
    simpl List.concat in IH. change Hosts.LF with [NL] in IH.
    now rewrite IH.
Qed.

Section WithParser.

Variable env : Env.
Variable JSON_parse : JS.str -> option Command.

Lemma forEachLine_app (l1 l2 : list JS.str) (out : list Response)
      (w : World) :
  forEachLine env JSON_parse (l1 ++ l2) out w
  = bind (forEachLine env JSON_parse l1 out)
         (fun o => forEachLine env JSON_parse l2 o) w.
Proof.
  revert out w; induction l1 as [|l l1 IH]; intros out w; simpl.
  - unfold bind, ret. reflexivity.
  - destruct (negb (JS.truthy (JSText.trim l))); [apply IH|].
    unfold bind in *.
    destruct (handleLine env JSON_parse l w) as [[r|e] w']; [|reflexivity].
    apply IH.
Qed.

(** The answer to one line is always there: [handleLine] does not throw. *)
Lemma handleLine_returns (line : JS.str) (w : World) :
  exists r, fst (handleLine env JSON_parse line w) = Ret r.
Proof.
  unfold handleLine, tryCatch.
  destruct (JSON_parse line) as [command|].
  - destruct (handleCommand env command w) as [[r|e] w'];
      simpl; eauto.
  - simpl. eauto.
Qed.

Lemma forEachLine_returns (lines : list JS.str) (out : list Response)
      (w : World) :
  exists new,
    fst (forEachLine env JSON_parse lines out w) = Ret (out ++ new) /\
    List.length new = List.length (filter isRequest lines).
Proof.
  revert out w; induction lines as [|l ls IH]; intros out w; simpl.
  - exists []. now rewrite app_nil_r.
  - unfold isRequest at 1.
    destruct (JS.truthy (JSText.trim l)); simpl.
    + unfold bind.
      destruct (handleLine_returns l w) as [r Hr].
      destruct (handleLine env JSON_parse l w) as [[r'|e] w'];
        simpl in Hr; [|discriminate].
      destruct (IH (out ++ [r']) w') as (new & H1 & H2).
      exists (r' :: new). rewrite H1, <- app_assoc. simpl.
      split; [reflexivity | now rewrite H2].
    + apply IH.
Qed.

Lemma or_empty (l : JS.str) : (if JS.truthy l then l else JS.lit "") = l.
Proof. destruct l; reflexivity. Qed.

(** What [onData] does, with the two halves of [split] and [pop] named. *)
Lemma onData_unfold (conn : Connection) (data : JS.str) (w : World)
      (lines : list JS.str) (last : JS.str) :
  JSText.pop (JSText.split NL (buffer conn ++ data)) = (lines, Some last) ->
  onData env JSON_parse conn data w
  = bind (forEachLine env JSON_parse lines (output conn))
         (fun o => ret (mkConn last o)) w.
Proof.
  intros H. unfold onData. change (ascii_of_nat 10) with NL.
  rewrite H, or_empty. reflexivity.
Qed.

(** X11: how the text arrives does not matter.  Handling a piece of text
    and then the next one does the same, to the daemon and to the
    connection, as handling the two as one (the pieces are the chunks as
    [data.toString()] gives them). *)
Theorem onData_chunking (conn : Connection) (d1 d2 : JS.str) (w : World) :
  onData env JSON_parse conn (d1 ++ d2) w
  = bind (onData env JSON_parse conn d1)
         (fun conn1 => onData env JSON_parse conn1 d2) w.
Proof.
  destruct (split_app NL (buffer conn ++ d1) d2) as (la & ra & Hp & Hs).
  destruct (pop_last_some (JSText.split NL (ra ++ d2)) (split_nonempty _ _))
    as [rb Hb].
  assert (P2 : JSText.pop (JSText.split NL (ra ++ d2))
               = (fst (JSText.pop (JSText.split NL (ra ++ d2))), Some rb))
    by (rewrite <- Hb; apply surjective_pairing).
  rewrite (onData_unfold conn (d1 ++ d2) w
             (la ++ fst (JSText.pop (JSText.split NL (ra ++ d2)))) rb).
  2:{ rewrite app_assoc, Hs, pop_app by apply split_nonempty.
      now rewrite Hb. }
  unfold bind at 2. rewrite (onData_unfold conn d1 w la ra Hp).
  unfold bind at 1 2. rewrite forEachLine_app. unfold bind at 1.
  destruct (forEachLine env JSON_parse la (output conn) w) as [[o|e] w'];
    [|reflexivity].
  change (ret (mkConn ra o) w') with (Ret (mkConn ra o), w'). cbv iota beta.
  rewrite (onData_unfold (mkConn ra o) d2 w' _ rb P2). reflexivity.
Qed.

(** X12: on a connection with an empty buffer, lines that each end in a
    line feed, followed by a text without line feed, are handled one by
    one in their order; the connection gets one answer for every line
    that is not blank, and the text without line feed waits in the buffer
    unanswered. *)
Theorem onData_frames_requests (lines : list JS.str) (tail : JS.str)
        (out : list Response) (w : World) :
  Forall oneLine lines -> oneLine tail ->
  onData env JSON_parse (mkConn (JS.lit "") out) (framed lines ++ tail) w
  = bind (forEachLine env JSON_parse lines out)
         (fun o => ret (mkConn tail o)) w
  /\
  exists new w',
    onData env JSON_parse (mkConn (JS.lit "") out) (framed lines ++ tail) w
    = (Ret (mkConn tail (out ++ new)), w') /\
    List.length new = List.length (filter isRequest lines).
Proof.
  intros Hl Ht.
  assert (E : onData env JSON_parse (mkConn (JS.lit "") out)
                (framed lines ++ tail) w
              = bind (forEachLine env JSON_parse lines out)
                     (fun o => ret (mkConn tail o)) w).
  { apply onData_unfold. simpl buffer. simpl app.
    rewrite split_framed by assumption.
    rewrite pop_app by discriminate. simpl. now rewrite app_nil_r. }
  split; [exact E|]. rewrite E. unfold bind.
  destruct (forEachLine_returns lines out w) as (new & H1 & H2).
  destruct (forEachLine env JSON_parse lines out w) as [[o|e] w'];
    simpl in H1; [|discriminate].
  injection H1 as ->. exists new, w'. split; [reflexivity | exact H2].
Qed.

(** X13: a line that [JSON.parse] rejects, and a start-block command whose
    [endTime] makes the log line throw, are both answered with
    [{success: false, error: 'Invalid JSON'}]; the daemon is left as it
    was and the lines that follow are handled as usual. *)
Theorem bad_request_is_answered_and_skipped (line : JS.str)
        (rest : list JS.str) (out : list Response) (w : World) :
  isRequest line = true ->
  JSON_parse line = None \/
  (exists ds e id, JSON_parse line = Some (StartBlockCmd ds e id) /\
                   validTime e = false) ->
  handleLine env JSON_parse line w
  = (Ret (Failure (JS.lit "Invalid JSON")), w)
  /\ forEachLine env JSON_parse (line :: rest) out w
     = forEachLine env JSON_parse rest
         (out ++ [Failure (JS.lit "Invalid JSON")]) w.
Proof.
  intros Hr Hbad.
  assert (H : handleLine env JSON_parse line w
              = (Ret (Failure (JS.lit "Invalid JSON")), w)).
  { unfold handleLine, tryCatch.
    destruct Hbad as [->|(ds & e & id & -> & Hv)]; [reflexivity|].
    unfold handleCommand, startBlock, Date_toISOString, log, bind, ret, throw.
    rewrite Hv. reflexivity. }
  split; [exact H|].
  simpl. unfold isRequest in Hr. rewrite Hr. simpl.
  unfold bind. now rewrite H.
Qed.

End WithParser.

Lemma onData_frames_requests_witness :
  Forall oneLine lines_sample /\ oneLine tail_sample /\
  exists new w',
    onData (DaemonSpec.env_ok 1000) parse_ping (mkConn (JS.lit "") [])
      (framed lines_sample ++ tail_sample) LifeCycleSpec.world_fresh
    = (Ret (mkConn tail_sample ([] ++ new)), w') /\
    List.length new = 2%nat.
Proof.
  assert (L : Forall oneLine lines_sample).
  { repeat constructor; intros H; simpl in H; intuition discriminate. }
  assert (T : oneLine tail_sample).
  { intros H; simpl in H; intuition discriminate. }
  split; [exact L|]. split; [exact T|].
  exact (proj2 (onData_frames_requests (DaemonSpec.env_ok 1000) parse_ping
                  lines_sample tail_sample [] LifeCycleSpec.world_fresh L T)).
Defined.

Lemma bad_request_is_answered_and_skipped_witness :
  isRequest (JS.lit "bogus") = true /\
  handleLine (DaemonSpec.env_ok 1000) parse_ping (JS.lit "bogus")
    LifeCycleSpec.world_fresh
  = (Ret (Failure (JS.lit "Invalid JSON")), LifeCycleSpec.world_fresh).
Proof.
  split; [reflexivity|].
  exact (proj1 (bad_request_is_answered_and_skipped
                  (DaemonSpec.env_ok 1000) parse_ping (JS.lit "bogus") []
                  [] LifeCycleSpec.world_fresh eq_refl
                  (or_introl eq_refl))).
Defined.

End ServerFacts.

(* ================================================================== *)
(** ** The IPC client: the first line of the answer settles the call *)
(* ================================================================== *)

Module ClientFacts.

Import Client ServerSpec.

Lemma find_char_cons (c d : ascii) (s : JS.str) :
  JS.find (d :: s) [c]
  = if Ascii.eqb c d then Some 0%nat else option_map S (JS.find s [c]).
Proof.
  rewrite JSFacts.find_cons. simpl. now rewrite andb_true_r.
Qed.

Lemma find_char_app_Some (c : ascii) (x y : JS.str) (i : nat) :
  JS.find x [c] = Some i ->
  JS.find (x ++ y) [c] = Some i /\ (i < List.length x)%nat /\
  firstn i (x ++ y) = firstn i x.
Proof.
  revert i; induction x as [|d x IH]; intros i H.
  - discriminate.
  - rewrite <- app_comm_cons, find_char_cons. rewrite find_char_cons in H.
    destruct (Ascii.eqb c d).
    + injection H as <-. simpl. repeat split; [lia].
    + destruct (JS.find x [c]) as [k|] eqn:F; [|discriminate].
      injection H as <-. destruct (IH k eq_refl) as (H1 & H2 & H3).
      rewrite H1. simpl. rewrite H3. repeat split; lia.
Qed.

Lemma find_char_line (c : ascii) (r rest : JS.str) :
  ~ In c r -> JS.find (r ++ c :: rest) [c] = Some (List.length r).
Proof.
  induction r as [|d r IH]; intros H.
  - simpl app. rewrite find_char_cons. now rewrite Ascii.eqb_refl.
  - rewrite <- app_comm_cons, find_char_cons.
    destruct (Ascii.eqb_spec c d) as [->|_].
    + exfalso; apply H; now left.
    + rewrite IH; [reflexivity|]. intros Hin; apply H; now right.
Qed.

Lemma substring_firstn (s : JS.str) (i : nat) :
  (i <= List.length s)%nat -> JS.substring s 0 (Z.of_nat i) = firstn i s.
Proof.
  intros H. unfold JS.substring, JS.clamp. rewrite Nat2Z.id.
  simpl Z.to_nat. rewrite Nat.min_0_l.
  replace (Nat.min i (List.length s)) with i by lia.
  rewrite Nat.min_0_l, Nat.max_0_l, Nat.sub_0_r. reflexivity.
Qed.

Section Send.

Variable Value : Type.
Variable JSON_parse : JS.str -> option Value.

Lemma onData_resolved (d : JS.str) (s : Send Value) :
  resolved s = true -> onData JSON_parse d s = append d s.
Proof.
  intros H. unfold onData.
  destruct (negb (JS.indexOf (responseBuffer (append d s)) Hosts.LF =? -1)%Z);
    [|reflexivity].
  simpl resolved. now rewrite H.
Qed.

Lemma append_append (d1 d2 : JS.str) (s : Send Value) :
  append d2 (append d1 s) = append (d1 ++ d2) s.
Proof. unfold append. simpl. now rewrite app_assoc. Qed.

Lemma onData_onData (d1 d2 : JS.str) (s : Send Value) :
  onData JSON_parse d2 (onData JSON_parse d1 s)
  = onData JSON_parse (d1 ++ d2) s.
Proof.
  destruct (resolved s) eqn:R.
  { rewrite (onData_resolved d1 s R).
    rewrite onData_resolved by exact R.
    rewrite (onData_resolved (d1 ++ d2) s R). apply append_append. }
  destruct s as [b r ct rt de wr p]. simpl in R. subst r.
  unfold onData at 2 3. cbv [append responseBuffer resolved negb].
  unfold JS.indexOf. change Hosts.LF with [NL].
  destruct (JS.find (b ++ d1) [NL]) as [i|] eqn:F.
  - (* the line is complete within the first chunk *)
    destruct (find_char_app_Some _ _ d2 _ F) as (F2 & Hi & Hf).
    rewrite app_assoc, F2.
    destruct (Z.of_nat i =? -1)%Z eqn:E; [apply Z.eqb_eq in E; lia|].
    cbv iota.
    rewrite !substring_firstn by (rewrite ?length_app in *; lia).
    rewrite Hf.
    destruct (JSON_parse (firstn i (b ++ d1))); destruct de;
      (rewrite onData_resolved by reflexivity); reflexivity.
  - cbv iota. unfold onData, JS.indexOf.
    cbv [append responseBuffer resolved negb]. change Hosts.LF with [NL].
    rewrite app_assoc. reflexivity.
Qed.

(** X14: for the client too the cut of the answer into pieces does not
    matter: two [data] events leave [send] in the state one event with
    the joined text leaves it in. *)
Theorem client_onData_chunking (d1 d2 : JS.str) (s : Send Value) :
  onData JSON_parse d2 (onData JSON_parse d1 s)
  = onData JSON_parse (d1 ++ d2) s.
Proof.
  destruct (resolved s) eqn:R.
  { rewrite (onData_resolved d1 s R).
    rewrite onData_resolved by exact R.
    rewrite (onData_resolved (d1 ++ d2) s R). apply append_append. }
  destruct s as [b r ct rt de wr p]. simpl in R. subst r.
  unfold onData at 2 3. cbv [append responseBuffer resolved negb].
  unfold JS.indexOf. change Hosts.LF with [NL].
  destruct (JS.find (b ++ d1) [NL]) as [i|] eqn:F.
  - (* the line is complete within the first chunk *)
    destruct (find_char_app_Some _ _ d2 _ F) as (F2 & Hi & Hf).
    rewrite app_assoc, F2.
    destruct (Z.of_nat i =? -1)%Z eqn:E; [apply Z.eqb_eq in E; lia|].
    cbv iota.
    rewrite !substring_firstn by (rewrite ?length_app in *; lia).
    rewrite Hf.
    destruct (JSON_parse (firstn i (b ++ d1))); destruct de;
      (rewrite onData_resolved by reflexivity); reflexivity.
  - cbv iota. unfold onData, JS.indexOf.
    cbv [append responseBuffer resolved negb]. change Hosts.LF with [NL].
    rewrite app_assoc. reflexivity.
Qed.

Lemma onData_nil (s : Send Value) :
  resolved s = true \/ JS.find (responseBuffer s) Hosts.LF = None ->
  onData JSON_parse [] s = s.
Proof.
  intros [H|H].
  - rewrite onData_resolved by exact H. unfold append.
    rewrite app_nil_r. now destruct s.
  - destruct s as [b r ct rt de wr p]. simpl in H.
    unfold onData, JS.indexOf. cbv [append responseBuffer].
    rewrite app_nil_r, H. reflexivity.
Qed.

Lemma onData_keeps (d : JS.str) (s : Send Value) :
  resolved (onData JSON_parse d s) = true
  \/ JS.find (responseBuffer (onData JSON_parse d s)) Hosts.LF = None.
Proof.
  destruct (resolved s) eqn:R.
  { left. rewrite onData_resolved by exact R. exact R. }
  destruct s as [b r ct rt de wr p]. simpl in R. subst r.
  unfold onData, JS.indexOf. cbv [append responseBuffer resolved negb].
  destruct (JS.find (b ++ d) Hosts.LF) as [i|] eqn:F.
  - destruct (Z.of_nat i =? -1)%Z eqn:E; [apply Z.eqb_eq in E; lia|].
    left. cbv iota. destruct (JSON_parse _); destruct de; reflexivity.
  - right. exact F.
Qed.

Lemma run_chunks (chunks : list JS.str) (s : Send Value) :
  resolved s = true \/ JS.find (responseBuffer s) Hosts.LF = None ->
  run JSON_parse s (map Data chunks)
  = onData JSON_parse (List.concat chunks) s.
Proof.
  unfold Client.run.
  revert s; induction chunks as [|d ds IH]; intros s H.
  - simpl. symmetry. now apply onData_nil.
  - simpl map. simpl fold_left. simpl List.concat.
    change (step JSON_parse s (Data d)) with (onData JSON_parse d s).
    rewrite IH by apply onData_keeps.
    apply onData_onData.
Qed.

(** X15: after [connect], when the pieces of text that arrive make up a
    line, a line feed and whatever follows, the promise of [send] is
    settled by that first line: resolved with what [JSON.parse] makes of
    it, or rejected with [Invalid response from helper: ] and the line.
    Both timers are cleared, the socket is destroyed, the command was
    written once; [isRunning] is the [success] of the parsed line, and
    false when the line does not parse. *)
Theorem send_settles_with_first_line (chunks : list JS.str)
        (line rest : JS.str) (success : Value -> bool) :
  oneLine line ->
  List.concat chunks = line ++ Hosts.LF ++ rest ->
  let s := run JSON_parse (start Value) (Connect :: map Data chunks) in
  promise s
  = Some match JSON_parse line with
         | Some response => Resolved response
         | None =>
             Rejected (JS.lit "Invalid response from helper: " ++ line)
         end
  /\ resolved s = true
  /\ connectionTimeout s = false /\ responseTimeout s = false
  /\ destroyed s = true
  /\ written s = 1%nat
  /\ (forall o, promise s = Some o ->
                isRunning success o
                = match JSON_parse line with
                  | Some response => success response
                  | None => false
                  end).
Proof.
  intros Hl Hc s.
  assert (E : s = mkSend (line ++ Hosts.LF ++ rest) true false false true 1
                    (Some match JSON_parse line with
                          | Some response => Resolved response
                          | None =>
                              Rejected
                                (JS.lit "Invalid response from helper: "
                                   ++ line)
                          end)).
  { unfold s.
    change (Client.run JSON_parse (start Value) (Connect :: map Data chunks))
      with (Client.run JSON_parse (onConnect (start Value))
              (map Data chunks)).
    rewrite run_chunks by (right; reflexivity).
    rewrite Hc. unfold onData, JS.indexOf.
    cbv [append responseBuffer onConnect start write set_resolved
         clear_connectionTimeout clear_responseTimeout cleanup
         resolve reject settle resolved negb connectionTimeout
         responseTimeout destroyed written promise].
    change Hosts.LF with [NL]. change (JS.lit "") with (@nil ascii).
    simpl app.
    rewrite (find_char_line NL line rest Hl).
    destruct (Z.of_nat (List.length line) =? -1)%Z eqn:E;
      [apply Z.eqb_eq in E; lia|].
    cbv iota.
    replace (JS.substring (line ++ NL :: rest) 0
               (Z.of_nat (List.length line))) with line
      by (symmetry; apply (JSFacts.substring_prefix line (NL :: rest))).
    destruct (JSON_parse line); reflexivity. }
  rewrite E. simpl. repeat split; try reflexivity.
  intros o [= <-]. destruct (JSON_parse line); reflexivity.
Qed.

(** X16: the first settlement stays.  Once [resolved] is set no event
    changes the promise or destroys the socket again; and in every run
    from the start [resolved] is set exactly when the promise is
    settled. *)
Theorem send_first_settlement_stays (events : list Event) :
  (forall s : Send Value,
      resolved s = true ->
      promise (run JSON_parse s events) = promise s /\
      destroyed (run JSON_parse s events) = destroyed s /\
      resolved (run JSON_parse s events) = true)
  /\
  (resolved (run JSON_parse (start Value) events) = true
   <-> promise (run JSON_parse (start Value) events) <> None).
Proof.
  assert (K : forall (s : Send Value) ev,
             resolved s = true ->
             promise (step JSON_parse s ev) = promise s /\
             destroyed (step JSON_parse s ev) = destroyed s /\
             resolved (step JSON_parse s ev) = true).
  { intros [b r ct rt de wr p] ev R. simpl in R. subst r.
    destruct ev as [|d|err| | |]; simpl.
    - auto.
    - unfold onData. simpl.
      destruct (negb (JS.indexOf (b ++ d) Hosts.LF =? -1)%Z); simpl; auto.
    - auto.
    - auto.
    - destruct ct; simpl; auto.
    - destruct rt; simpl; auto. }
  assert (I : forall (s : Send Value) ev,
             (resolved s = true <-> promise s <> None) ->
             (resolved (step JSON_parse s ev) = true
              <-> promise (step JSON_parse s ev) <> None)).
  { intros [b r ct rt de wr p] ev. simpl. intros H.
    destruct r.
    - destruct (K (mkSend b true ct rt de wr p) ev eq_refl) as (P & _ & R).
      rewrite R, P. simpl. tauto.
    - assert (p = None).
      { destruct p; [|reflexivity].
        assert (false = true) by (apply H; discriminate). discriminate. }
      subst p. destruct ev as [|d|err| | |]; simpl.
      + exact H.
      + unfold onData. simpl.
        destruct (negb (JS.indexOf (b ++ d) Hosts.LF =? -1)%Z); simpl;
          [|exact H].
        destruct (JSON_parse _); destruct de; simpl;
          split; intros; [discriminate | reflexivity
                         | discriminate | reflexivity
                         | discriminate | reflexivity
                         | discriminate | reflexivity].
      + unfold onError. simpl.
        destruct (_ || _); destruct de; simpl;
          split; intros; try discriminate; reflexivity.
      + simpl. split; intros; [discriminate | reflexivity].
      + destruct ct; simpl; [|exact H].
        destruct de; simpl; split; intros; try discriminate; reflexivity.
      + destruct rt; simpl; [|exact H].
        destruct de; simpl; split; intros; try discriminate; reflexivity. }
  split.
  - unfold Client.run. induction events as [|ev evs IH]; intros s R.
    + simpl. auto.
    + simpl. destruct (K s ev R) as (P & D & R').
      destruct (IH _ R') as (P2 & D2 & R2).
      rewrite P2, D2, R2, P, D. auto.
  - unfold Client.run.
    assert (G : forall s : Send Value,
               (resolved s = true <-> promise s <> None) ->
               (resolved (fold_left (step JSON_parse) events s) = true
                <-> promise (fold_left (step JSON_parse) events s) <> None)).
    { induction events as [|ev evs IH]; intros s H; [exact H|].
      simpl. apply IH. now apply I. }
    apply G. simpl. split; [discriminate | congruence].
Qed.

End Send.

Lemma send_settles_with_first_line_witness :
  oneLine (JS.lit "ok") /\
  promise (run ClientSpec.parse_sample (start bool)
             (Connect :: map Data ClientSpec.chunks_sample))
  = Some (Resolved true).
Proof.
  assert (L : oneLine (JS.lit "ok")).
  { intros H; simpl in H; intuition discriminate. }
  split; [exact L|].
  exact (proj1 (send_settles_with_first_line bool ClientSpec.parse_sample
                  ClientSpec.chunks_sample (JS.lit "ok") (JS.lit "more")
                  (fun b => b) L eq_refl)).
Defined.

Lemma send_first_settlement_stays_witness :
  resolved (run ClientSpec.parse_sample (start bool) [ResponseTimeout]) = true
  /\
  promise (run ClientSpec.parse_sample
             (run ClientSpec.parse_sample (start bool) [ResponseTimeout])
             (Connect :: map Data ClientSpec.chunks_sample))
  = Some (Rejected (JS.lit "Response timeout")).
Proof.
  split; [reflexivity|].
  exact (proj1 (proj1 (send_first_settlement_stays bool ClientSpec.parse_sample
                         (Connect :: map Data ClientSpec.chunks_sample))
                  (run ClientSpec.parse_sample (start bool) [ResponseTimeout])
                  eq_refl)).
Defined.

End ClientFacts.

(* ================================================================== *)
(** ** The section written by the main process, seen by the daemon *)
(* ================================================================== *)

Module BlockWebsitesFacts.

Import Hosts HostsSpec HostsFacts HostsMore BlockWebsites BlockWebsitesSpec.

Lemma fold_addEntries (ds : list JS.str) (acc : JS.str) :
  fold_left addEntries ds acc = acc ++ List.concat (map entries ds).
Proof.
  revert acc; induction ds as [|d ds IH]; intros acc.
  - simpl. now rewrite app_nil_r.
  - change (fold_left addEntries (d :: ds) acc)
      with (fold_left addEntries ds (addEntries acc d)).
    change (List.concat (map entries (d :: ds)))
      with (entries d ++ List.concat (map entries ds)).
    rewrite IH. unfold addEntries, entries. cbv zeta.
    now rewrite <- !app_assoc.
Qed.

Lemma hostsEntries_shape (ds : list JS.str) :
  hostsEntries ds
  = LF ++ BLOCK_MARKER_START ++ (LF ++ List.concat (map entries ds))
      ++ BLOCK_MARKER_END ++ LF.
Proof.
  unfold hostsEntries. rewrite fold_addEntries.
  change blockMarkerStart with BLOCK_MARKER_START.
  change blockMarkerEnd with BLOCK_MARKER_END.
  now rewrite <- !app_assoc.
Qed.

Lemma endFree_find (s : JS.str) :
  endFree s <-> JS.find s BLOCK_MARKER_END = None.
Proof. apply includes_false_find. Qed.

Lemma endFree_entry (pre d rest : JS.str) :
  ~ In "#"%char pre -> endFree d -> endFree rest ->
  endFree (pre ++ d ++ LF ++ rest).
Proof.
  rewrite !endFree_find. intros Hp Hd Hr.
  apply (find_skip_headless "#"%char (JS.lit " END REDD BLOCK") pre).
  - exact Hp.
  - apply (JSFacts.find_sep_None (ascii_of_nat 10)); auto.
    simpl. intuition discriminate.
Qed.

Lemma endFree_entries (ds : list JS.str) :
  Forall endFree ds -> endFree (LF ++ List.concat (map entries ds)).
Proof.
  intros H.
  assert (E : endFree (List.concat (map entries ds))).
  { induction H as [|d ds Hd Hds IH]; [reflexivity|].
    change (List.concat (map entries (d :: ds)))
      with (entries d ++ List.concat (map entries ds)).
    unfold entries at 1. rewrite <- !app_assoc.
    assert (N : forall pre,
               (if in_dec ascii_dec "#"%char pre then false else true) = true
               -> ~ In "#"%char pre).
    { intros pre Hdec Hin. destruct (in_dec ascii_dec "#"%char pre); easy. }
    apply (endFree_entry (JS.lit "0.0.0.0" ++ TAB)); [apply N; reflexivity | exact Hd |].
    apply (endFree_entry (JS.lit "::" ++ TAB)); [apply N; reflexivity | exact Hd |].
    apply (endFree_entry (JS.lit "0.0.0.0" ++ TAB ++ JS.lit "www."));
      [apply N; reflexivity | exact Hd |].
    apply (endFree_entry (JS.lit "::" ++ TAB ++ JS.lit "www."));
      [apply N; reflexivity | exact Hd |].
    exact IH. }
  apply endFree_find. apply endFree_find in E.
  apply (JSFacts.find_sep_None (ascii_of_nat 10) [] _ _);
    [simpl; intuition discriminate | reflexivity | exact E].
Qed.

Lemma markerFree_trim (s : JS.str) :
  markerFree s -> markerFree (JSText.trim s).
Proof.
  intros H. unfold JSText.trim.
  now apply markerFree_trimEnd, markerFree_trimStart.
Qed.

Lemma trimEnd_trim (s : JS.str) : JS.trimEnd (JSText.trim s) = JSText.trim s.
Proof. unfold JSText.trim. apply JSFacts.trimEnd_idem. Qed.

Lemma trimStart_allWhite (ws : JS.str) : allWhite ws -> JS.trimStart ws = [].
Proof.
  intros H. rewrite <- (app_nil_r ws). now rewrite JSFacts.trimStart_white.
Qed.

(** White space after a trimmed text is trimmed away again. *)
Lemma trim_trim_white (s ws : JS.str) :
  allWhite ws -> JSText.trim (JSText.trim s ++ ws) = JSText.trim s.
Proof.
  intros Hws.
  assert (S : JS.trimStart (JSText.trim s ++ ws) = JSText.trim s ++ ws
              \/ JSText.trim s = []).
  { unfold JSText.trim.
    destruct (JSFacts.trimEnd_split (JS.trimStart s)) as (ws' & _ & E).
    destruct (JS.trimEnd (JS.trimStart s)) as [|c t] eqn:T; [now right|].
    left. simpl. 
    assert (W : JS.isWhiteSpace c = false).
    { clear - E. induction s as [|x s IH]; [discriminate|].
      simpl in E. destruct (JS.isWhiteSpace x) eqn:X.
      - now apply IH.
      - simpl in E. injection E as -> _. exact X. }
    now rewrite W. }
  destruct S as [S|S].
  - unfold JSText.trim at 1. rewrite S, JSFacts.trimEnd_white by exact Hws.
    apply trimEnd_trim.
  - rewrite S. simpl app. unfold JSText.trim.
    rewrite (trimStart_allWhite ws Hws). reflexivity.
Qed.

Lemma newHosts_markerFree (c e : JS.str) :
  markerFree c -> newHosts c e = JSText.trim c ++ e.
Proof.
  intros [H _]. apply includes_false_find in H.
  unfold newHosts, JS.indexOf.
  change blockMarkerStart with BLOCK_MARKER_START. now rewrite H.
Qed.

(** The text of the handler, cut at the two markers. *)
Lemma blockWebsitesHosts_shape (c : JS.str) (ds : list JS.str) :
  markerFree c ->
  blockWebsitesHosts c ds
  = (JSText.trim c ++ LF) ++ BLOCK_MARKER_START
      ++ (LF ++ List.concat (map entries (cleanDomains ds)))
      ++ BLOCK_MARKER_END ++ LF.
Proof.
  intros H. unfold blockWebsitesHosts.
  rewrite newHosts_markerFree by exact H.
  rewrite hostsEntries_shape. now rewrite <- !app_assoc.
Qed.

Lemma markerFree_before (c : JS.str) :
  markerFree c -> markerFree (JSText.trim c ++ LF).
Proof.
  intros H. rewrite <- (app_nil_r LF).
  apply markerFree_lines; [now apply markerFree_trim | split; reflexivity].
Qed.

(** X17: the daemon knows the section the [block-websites] handler of the
    main process writes.  On the text the handler makes of a hosts file
    without markers ([domains] without the end marker in them)
    [containsBlock] is true, and [removeBlockFromHosts] gives the trimmed
    hosts file back. *)
Theorem daemon_removes_section_of_main_process (currentHosts : JS.str)
        (domains : list JS.str) :
  markerFree currentHosts -> Forall endFree (cleanDomains domains) ->
  containsBlock (blockWebsitesHosts currentHosts domains) = true /\
  removeBlockFromHosts (blockWebsitesHosts currentHosts domains)
  = JSText.trim currentHosts.
Proof.
  intros Hc Hd. rewrite blockWebsitesHosts_shape by exact Hc. split.
  - apply JSFacts.includes_occurs. eexists. eexists. reflexivity.
  - rewrite remove_section.
    + simpl JS.trimStart. simpl JS.truthy. cbv iota. rewrite app_nil_r.
      rewrite JSFacts.trimEnd_white by reflexivity. apply trimEnd_trim.
    + now apply markerFree_before.
    + now apply endFree_entries.
Qed.

Lemma daemon_removes_section_of_main_process_witness :
  markerFree hosts_sample /\
  Forall endFree (cleanDomains domains_sample) /\
  removeBlockFromHosts (blockWebsitesHosts hosts_sample domains_sample)
  = JSText.trim hosts_sample.
Proof.
  assert (H : markerFree hosts_sample) by (split; reflexivity).
  assert (D : Forall endFree (cleanDomains domains_sample))
    by (repeat constructor).
  split; [exact H|]. split; [exact D|].
  exact (proj2 (daemon_removes_section_of_main_process hosts_sample
                  domains_sample H D)).
Defined.

(** X18: the handler's own text is stable: run on the text it wrote, with
    the same domains, it writes the same text again. *)
Theorem blockWebsitesHosts_idempotent (currentHosts : JS.str)
        (domains : list JS.str) :
  markerFree currentHosts -> Forall endFree (cleanDomains domains) ->
  blockWebsitesHosts (blockWebsitesHosts currentHosts domains) domains
  = blockWebsitesHosts currentHosts domains.
Proof.
  intros Hc Hd.
  set (T := JSText.trim currentHosts).
  set (body := LF ++ List.concat (map entries (cleanDomains domains))).
  assert (Sh : blockWebsitesHosts currentHosts domains
               = (T ++ LF) ++ BLOCK_MARKER_START ++ body
                   ++ BLOCK_MARKER_END ++ LF)
    by now apply blockWebsitesHosts_shape.
  unfold blockWebsitesHosts at 1. rewrite Sh.
  destruct (find_section (T ++ LF) body LF
              (markerFree_before _ Hc) (endFree_entries _ Hd)) as [FS FE].
  unfold newHosts, JS.indexOf.
  change blockMarkerStart with BLOCK_MARKER_START.
  change blockMarkerEnd with BLOCK_MARKER_END.
  rewrite FS, FE.
  destruct (Z.of_nat (List.length (T ++ LF)) =? -1)%Z eqn:E;
    [apply Z.eqb_eq in E; lia|].
  destruct (Z.of_nat (List.length ((T ++ LF) ++ BLOCK_MARKER_START ++ body))
            =? -1)%Z eqn:E'; [apply Z.eqb_eq in E'; lia|].
  cbv [negb andb]. rewrite JSFacts.substring_prefix.
  replace (Z.of_nat (List.length ((T ++ LF) ++ BLOCK_MARKER_START ++ body))
           + JS.length BLOCK_MARKER_END)%Z
    with (Z.of_nat (List.length
            (((T ++ LF) ++ BLOCK_MARKER_START ++ body) ++ BLOCK_MARKER_END)))
    by (unfold JS.length; rewrite (length_app (_ ++ _)); lia).
  replace ((T ++ LF) ++ BLOCK_MARKER_START ++ body ++ BLOCK_MARKER_END ++ LF)
    with ((((T ++ LF) ++ BLOCK_MARKER_START ++ body) ++ BLOCK_MARKER_END) ++ LF)
    by (now rewrite <- !app_assoc).
  rewrite JSFacts.substringFrom_suffix.
  rewrite <- (app_assoc T LF LF).
  unfold T at 1. rewrite trim_trim_white by reflexivity. fold T.
  rewrite hostsEntries_shape. fold body. now rewrite <- !app_assoc.
Qed.

Lemma blockWebsitesHosts_idempotent_witness :
  markerFree hosts_sample /\
  Forall endFree (cleanDomains domains_sample) /\
  blockWebsitesHosts (blockWebsitesHosts hosts_sample domains_sample)
                     domains_sample
  = blockWebsitesHosts hosts_sample domains_sample.
Proof.
  assert (H : markerFree hosts_sample) by (split; reflexivity).
  assert (D : Forall endFree (cleanDomains domains_sample))
    by (repeat constructor).
  split; [exact H|]. split; [exact D|].
  exact (blockWebsitesHosts_idempotent hosts_sample domains_sample H D).
Defined.

End BlockWebsitesFacts.

(* ================================================================== *)
(** ** The answer to a start-block or clear-block command *)
(* ================================================================== *)

Module Answers.

Import Daemon DaemonSpec Server AnswerSpec.

(** The [try] and [catch] around [handleCommand]: what it returns is
    written to the socket; when it throws, the answer is
    [{success: false, error: 'Invalid JSON'}]. *)
Lemma handleLine_parsed (env : Env) (JSON_parse : JS.str -> option Command)
      (line : JS.str) (command : Command) (w : World) :
  JSON_parse line = Some command ->
  fst (handleLine env JSON_parse line w)
  = match fst (handleCommand env command w) with
    | Ret response => Ret response
    | Throw _ => Ret (Failure (JS.lit "Invalid JSON"))
    end
  /\ snd (handleLine env JSON_parse line w)
     = snd (handleCommand env command w).
Proof.
  intros H. unfold handleLine, tryCatch. rewrite H.
  destruct (handleCommand env command w) as [[response|err] w'];
    split; reflexivity.
Qed.

Lemma command_result (env : Env) (command : Command) (w : World) :
  changesBlock command = true ->
  exists evs,
    emits (handleCommand env command) w evs /\
    (isFailure (fst (handleCommand env command w)) <-> hostsWriteFailed evs) /\
    (hostsWriteFailed evs ->
     currentBlock (snd (handleCommand env command w)) = currentBlock w /\
     stateFile (snd (handleCommand env command w)) = stateFile w).
Proof.
  destruct command as [ds e id| | | |action]; try discriminate; intros _.
  - exact (proj1 (DaemonFacts.startBlock_clearBlock_result env w ds e id)).
  - exact (proj1 (proj2 (DaemonFacts.startBlock_clearBlock_result
                           env w [] 0%Z []))).
Qed.

(** C4, counterexample: a start-block command whose [endTime] the log line
    cannot print is answered [{success: false, error: 'Invalid JSON'}], and
    no write of the hosts file has failed: none was tried. *)
Lemma invalid_json_answer_without_hosts_write :
  ~ (forall env JSON_parse line command w evs,
        JSON_parse line = Some command -> changesBlock command = true ->
        emits (handleLine env JSON_parse line) w evs ->
        (isFailure (fst (handleLine env JSON_parse line w))
         <-> hostsWriteFailed evs)).
Proof.
  intros H.
  specialize (H (env_ok 1000) parse_start (JS.lit "start")
                (StartBlockCmd HostsSpec.domains_sample
                   LifeCycleSpec.endTime_unprintable (JS.lit "a"))
                LifeCycleSpec.world_fresh [] eq_refl eq_refl eq_refl).
  destruct (proj1 H) as [content Hin].
  - exists (JS.lit "Invalid JSON"). reflexivity.
  - destruct Hin.
Qed.

(** C4, with the commands that throw: the answer to a start-block or
    clear-block command is what [handleCommand] returns, and
    [{success: false, error: 'Invalid JSON'}] when it throws, as it does on
    a start-block command whose [endTime] is not a time value the log line
    can print.  So the answer is [{success: false, error}] exactly when a
    write of the hosts file failed or the handling of the command threw, and
    in the second case no write of the hosts file has failed.  What the
    firewall commands and the DNS flush do has no bearing on the answer; and
    after a failed hosts write [currentBlock] and the state file are as
    before. *)
Theorem answer_gated_on_hosts_write_or_throw (env : Env)
        (JSON_parse : JS.str -> option Command) (line : JS.str)
        (command : Command) (w : World) :
  JSON_parse line = Some command ->
  changesBlock command = true ->
  (exists evs,
      emits (handleLine env JSON_parse line) w evs /\
      (isFailure (fst (handleLine env JSON_parse line w))
       <-> hostsWriteFailed evs \/ throws (fst (handleCommand env command w))) /\
      (throws (fst (handleCommand env command w)) ->
       fst (handleLine env JSON_parse line w)
       = Ret (Failure (JS.lit "Invalid JSON"))
       /\ ~ hostsWriteFailed evs) /\
      (hostsWriteFailed evs ->
       currentBlock (snd (handleLine env JSON_parse line w)) = currentBlock w /\
       stateFile (snd (handleLine env JSON_parse line w)) = stateFile w))
  /\
  (forall response,
      fst (handleCommand env command w) = Ret response ->
      fst (handleLine env JSON_parse line w) = Ret response)
  /\
  (forall ds e id,
      command = StartBlockCmd ds e id -> validTime e = false ->
      throws (fst (handleCommand env command w)))
  /\
  (forall fw dns,
      fst (handleLine (withFailures env fw dns) JSON_parse line w)
      = fst (handleLine env JSON_parse line w)).
Proof.
  intros Hp Hc.
  destruct (handleLine_parsed env JSON_parse line command w Hp) as [Hr Hw].
  split; [|split; [|split]].
  - destruct (command_result env command w Hc) as (evs & He & Hiff & Hsame).
    exists evs. unfold emits in *. rewrite Hr, Hw.
    split; [exact He|].
    destruct (fst (handleCommand env command w)) as [response|err].
    + split; [|split; [|exact Hsame]].
      * split; [intros H; left; now apply Hiff|].
        intros [H|[err H]]; [now apply Hiff | discriminate].
      * intros [err H]. discriminate.
    + assert (Hno : ~ hostsWriteFailed evs).
      { intros H. apply Hiff in H. destruct H as [error H]. discriminate. }
      split; [|split; [|exact Hsame]].
      * split; [intros _; right; now exists err|].
        intros _. now exists (JS.lit "Invalid JSON").
      * intros _. split; [reflexivity | exact Hno].
  - intros response H. now rewrite Hr, H.
  - intros ds e id -> Hv. exists RangeError.
    unfold handleCommand, startBlock, Date_toISOString, log, bind, ret, throw.
    rewrite Hv. reflexivity.
  - intros fw dns.
    destruct (handleLine_parsed (withFailures env fw dns) JSON_parse line
                command w Hp) as [Hr' _].
    rewrite Hr, Hr'.
    destruct command as [ds e id| | | |action]; try discriminate.
    + change (handleCommand (withFailures env fw dns) (StartBlockCmd ds e id) w)
        with (startBlock (withFailures env fw dns) ds e id w).
      change (handleCommand env (StartBlockCmd ds e id) w)
        with (startBlock env ds e id w).
      now rewrite (proj1 (proj1 (proj2 (proj2
             (DaemonFacts.startBlock_clearBlock_result env w ds e id)))
             fw dns)).
    + change (handleCommand (withFailures env fw dns) ClearBlockCmd w)
        with (clearBlock (withFailures env fw dns) w).
      change (handleCommand env ClearBlockCmd w) with (clearBlock env w).
      now rewrite (proj2 (proj1 (proj2 (proj2
             (DaemonFacts.startBlock_clearBlock_result env w [] 0%Z [])))
             fw dns)).
Qed.

Lemma answer_gated_on_hosts_write_or_throw_witness :
  parse_start (JS.lit "start")
  = Some (StartBlockCmd HostsSpec.domains_sample
            LifeCycleSpec.endTime_unprintable (JS.lit "a")) /\
  forall fw dns,
    fst (handleLine (withFailures (env_ok 1000) fw dns) parse_start
           (JS.lit "start") LifeCycleSpec.world_fresh)
    = fst (handleLine (env_ok 1000) parse_start (JS.lit "start")
             LifeCycleSpec.world_fresh).
Proof.
  split; [reflexivity|].
  exact (proj2 (proj2 (proj2
           (answer_gated_on_hosts_write_or_throw (env_ok 1000) parse_start
              (JS.lit "start")
              (StartBlockCmd HostsSpec.domains_sample
                 LifeCycleSpec.endTime_unprintable (JS.lit "a"))
              LifeCycleSpec.world_fresh eq_refl eq_refl)))).
Defined.

End Answers.
